(** * Formula1-AR: playback clock, telemetry interpolation and track geometry

    A shallow embedding of the three algorithmic pieces of the front end:

    - the playback clock of [RaceControlsContext.tsx] (with the speed buttons
      of [ARControls.tsx] and the frame driver [RaceTimer.tsx]);
    - the per-frame telemetry sampling of [Cars.tsx];
    - the offset-curve builder and the strip mesh of [Track.tsx].

    The TypeScript sources compute on JavaScript numbers.  The embedding is
    written once over an interface of the number operations the sources use
    ([JSNumber]) and run on IEEE-754 binary64 ([float], the primitive floats
    of Rocq), which is what a JavaScript engine computes with.  Properties
    that hold whatever the arithmetic does are stated for every instance of
    the interface; properties that depend on the arithmetic are stated on
    binary64. *)

From Stdlib Require Import ZArith QArith List Bool String Lia.
From Stdlib Require Import Floats Uint63.
Import ListNotations.

Set Implicit Arguments.

(* ================================================================== *)
(** * JavaScript values used by the sources *)
(* ================================================================== *)

(** The operations on [number] the three components use.  [lit] reads a
    decimal literal of the source text; the comparison operators return the
    JavaScript boolean; [Math_sqrt], [Math_max], [Math_min], [isNaN] and
    [isFinite] are the built-ins of the same name. *)
Class JSNumber (num : Type) : Type := {
  lit       : Q -> num;
  nadd      : num -> num -> num;
  nsub      : num -> num -> num;
  nmul      : num -> num -> num;
  ndiv      : num -> num -> num;
  nneg      : num -> num;
  nltb      : num -> num -> bool;
  nleb      : num -> num -> bool;
  neqb      : num -> num -> bool;
  Math_sqrt : num -> num;
  Math_max  : num -> num -> num;
  Math_min  : num -> num -> num;
  isNaN     : num -> bool;
  isFinite  : num -> bool
}.

Declare Scope js_scope.
Delimit Scope js_scope with js.
Notation "a + b" := (nadd a b) : js_scope.
Notation "a - b" := (nsub a b) : js_scope.
Notation "a * b" := (nmul a b) : js_scope.
Notation "a / b" := (ndiv a b) : js_scope.
Notation "- a" := (nneg a) : js_scope.
Notation "a <? b" := (nltb a b) (at level 70) : js_scope.
Notation "a <=? b" := (nleb a b) (at level 70) : js_scope.
Notation "a >? b" := (nltb b a) (at level 70) : js_scope.
Notation "a >=? b" := (nleb b a) (at level 70) : js_scope.
Notation "a === b" := (neqb a b) (at level 70) : js_scope.

(** What a statement of the source completes with: normally, with a value,
    or with the [TypeError] a property read on [undefined] raises. *)
Inductive completion (A : Type) : Type :=
| Normal (a : A)
| TypeError.
Arguments TypeError {A}.

(** [arr[i]] for an integer [i]: [undefined] ([None]) outside the array,
    negative indices included. *)
Definition item {A : Type} (arr : list A) (i : Z) : option A :=
  if (i <? 0)%Z then None else nth_error arr (Z.to_nat i).

(** [Array.prototype.findIndex]: the index of the first element that
    satisfies [p], and [-1] when there is none. *)
Fixpoint findIndex_from {A : Type} (p : A -> bool) (arr : list A) (k : Z) : Z :=
  match arr with
  | [] => (-1)%Z
  | a :: rest => if p a then k else findIndex_from p rest (k + 1)%Z
  end.

Definition findIndex {A : Type} (p : A -> bool) (arr : list A) : Z :=
  findIndex_from p arr 0%Z.

(** [arr[arr.length - 1]], [undefined] on the empty array. *)
Definition lastItem {A : Type} (arr : list A) : option A :=
  item arr (Z.of_nat (List.length arr) - 1)%Z.

Section Values.
Context {num : Type} {N : JSNumber num}.
Local Open Scope js_scope.

(** Truthiness of a number: [0], [-0] and [NaN] are falsy. *)
Definition truthy (x : num) : bool := negb ((x === lit 0) || isNaN x).

(** [x || d] for a number [x]. *)
Definition orElse (x d : num) : num := if truthy x then x else d.

(** [x || d] where [x] may be [undefined]. *)
Definition orElse_undef (x : option num) (d : num) : num :=
  match x with
  | Some v => orElse v d
  | None => d
  end.

(** [THREE.MathUtils.lerp(x, y, t)], which three.js defines as
    [(1 - t) * x + t * y]. *)
Definition lerp (x y t : num) : num := (lit 1 - t) * x + t * y.

End Values.

(* ================================================================== *)
(** * Playback clock: RaceControlsContext.tsx                          *)
(* ================================================================== *)

Section Clock.
Context {num : Type} {N : JSNumber num}.
Local Open Scope js_scope.

(** The state the provider holds: three [useState] cells and the
    [currentTimeRef] the frame loop reads and writes. *)
Record RaceControls : Type := mkRaceControls {
  isPlaying        : bool;
  playbackSpeed    : num;
  currentTimeState : num;
  currentTimeRef   : num
}.

(** [useState(false)], [useState(1.0)], [useState(0)], [useRef(0)]. *)
Definition RaceControlsProvider : RaceControls :=
  mkRaceControls false (lit 1) (lit 0) (lit 0).

(** [advanceTime]: returns at once when not playing, else adds
    [delta * playbackSpeed] to the ref.  (The branch that follows in the
    source only holds a commented-out log line.) *)
Definition advanceTime (delta : num) (s : RaceControls) : RaceControls :=
  if negb (isPlaying s) then s
  else mkRaceControls (isPlaying s) (playbackSpeed s) (currentTimeState s)
                      (currentTimeRef s + delta * playbackSpeed s).

Definition setTime (time : num) (s : RaceControls) : RaceControls :=
  mkRaceControls (isPlaying s) (playbackSpeed s) time time.

Definition togglePlay (s : RaceControls) : RaceControls :=
  mkRaceControls (negb (isPlaying s)) (playbackSpeed s) (currentTimeState s)
                 (currentTimeRef s).

Definition reset (s : RaceControls) : RaceControls :=
  mkRaceControls false (playbackSpeed s) (lit 0) (lit 0).

Definition getCurrentTime (s : RaceControls) : num := currentTimeRef s.

(** [setPlaybackSpeed] is the setter [useState] returned: it stores its
    argument. *)
Definition setPlaybackSpeed (speed : num) (s : RaceControls) : RaceControls :=
  mkRaceControls (isPlaying s) speed (currentTimeState s) (currentTimeRef s).

(** The actions of the [speedUp] and [speedDown] buttons of
    [ARControls.tsx]. *)
Definition speedUp (s : RaceControls) : RaceControls :=
  let newSpeed := Math_min (lit 5) (playbackSpeed s + lit 0.5) in
  setPlaybackSpeed newSpeed s.

Definition speedDown (s : RaceControls) : RaceControls :=
  let newSpeed := Math_max (lit 0.5) (playbackSpeed s - lit 0.5) in
  setPlaybackSpeed newSpeed s.

(** [RaceTimer.tsx]: the frame callback caps the frame delta at 0.1 s. *)
Definition RaceTimer (delta : num) (s : RaceControls) : RaceControls :=
  if isPlaying s then
    let safeDelta := Math_min delta (lit 0.1) in
    advanceTime safeDelta s
  else s.

End Clock.

Arguments RaceControls num : clear implicits.

(* ================================================================== *)
(** * The AR control panel: ARControls.tsx                             *)
(* ================================================================== *)

Section ARControls.
Context {num : Type} {N : JSNumber num}.

(** The four buttons of the panel, by their [name]. *)
Inductive Button : Type := play | resetButton | speedUpButton | speedDownButton.

(** [button.action()] *)
Definition buttonAction (b : Button) (s : RaceControls num) : RaceControls num :=
  match b with
  | play => togglePlay s
  | resetButton => reset s
  | speedUpButton => speedUp s
  | speedDownButton => speedDown s
  end.

(** A session: the buttons clicked, in order, from the provider's initial
    state. *)
Definition clicks (bs : list Button) : RaceControls num :=
  fold_left (fun s b => buttonAction b s) bs RaceControlsProvider.

End ARControls.

(** Equality of button names is decidable. *)
Definition Button_eq_dec (a b : Button) : {a = b} + {a <> b}.
Proof. decide equality. Defined.

(* ================================================================== *)
(** * Telemetry sampling: Cars.tsx                                     *)
(* ================================================================== *)

Section Cars.
Context {num : Type} {N : JSNumber num}.
Local Open Scope js_scope.

(** An entry of [positions_normalized]: the [[x, y, z]] triple the data
    files hold. *)
Record Position : Type := mkPosition { px : num; py : num; pz : num }.

(** An entry of [brake], of type [boolean | number]. *)
Inductive BrakeValue : Type :=
| BrakeBool (b : bool)
| BrakeNum (n : num).

Record CarTelemetry : Type := mkCarTelemetry {
  driver               : string;
  positions_normalized : list Position;
  times                : list num;
  throttle             : list num;
  brake                : list BrakeValue;
  speed                : list num
}.

(** What the frame loop writes on a car's mesh: its position and the
    colour of its material. *)
Record Mesh : Type := mkMesh {
  position : Position;
  color    : string
}.

(** [carRef.position.set(x, y, z)] *)
Definition position_set (carRef : Mesh) (x y z : num) : Mesh :=
  mkMesh (mkPosition x y z) (color carRef).

(** [material.color.set(color)] *)
Definition color_set (carRef : Mesh) (c : string) : Mesh :=
  mkMesh (position carRef) c.

(** [carData.brake[timeIndex] || false], then tested by [if (brake)]. *)
Definition brake_truthy (b : option BrakeValue) : bool :=
  match b with
  | Some (BrakeBool v) => v
  | Some (BrakeNum n) => truthy n
  | None => false
  end.

(** The colour chosen from the throttle and brake channels. *)
Definition carColor (throttle_i : num) (brake_i : bool) : string :=
  if brake_i then "#CA1551"%string
  else if throttle_i >? lit 50 then "#03CEA4"%string
  else "#FFFFFF"%string.

(** The interpolation fraction, clamped to [0, 1]. *)
Definition fraction (currentTime prevTime nextTime : num) : num :=
  Math_max (lit 0) (Math_min (lit 1)
    ((currentTime - prevTime) / (nextTime - prevTime))).

(** Interpolation between the samples [timeIndex - 1] and [timeIndex]
    (the tail of the callback, from "Interpolate position between prev and
    next" on). *)
Definition interpolate (currentTime : num) (carData : CarTelemetry)
    (timeIndex : Z) (carRef : Mesh) : completion Mesh :=
  match item (times carData) (timeIndex - 1), item (times carData) timeIndex with
  | Some prevTime, Some nextTime =>
      let t := fraction currentTime prevTime nextTime in
      match item (positions_normalized carData) (timeIndex - 1),
            item (positions_normalized carData) timeIndex with
      | Some prevPos, Some nextPos =>
          let newX := lerp (px prevPos) (px nextPos) t in
          let newZ := lerp (pz prevPos) (pz nextPos) t in
          let carRef := position_set carRef newX (lit 0.01) newZ in
          let throttle_i := orElse_undef (item (throttle carData) timeIndex) (lit 0) in
          let brake_i := brake_truthy (item (brake carData) timeIndex) in
          Normal (color_set carRef (carColor throttle_i brake_i))
      | _, _ => Normal carRef
      end
  | _, _ => Normal carRef
  end.

(** The sampling pass for one car while playing: locate the first sample
    time that is not below [currentTime], clamp at both ends, interpolate
    in between. *)
Definition sample (currentTime : num) (carData : CarTelemetry)
    (carRef : Mesh) : completion Mesh :=
  let timeIndex := findIndex (fun t => t >=? currentTime) (times carData) in
  if (timeIndex =? -1)%Z then
    (* Past the end - use last position *)
    let timeIndex := (Z.of_nat (List.length (times carData)) - 1)%Z in
    match item (positions_normalized carData) timeIndex with
    | Some lastPos => Normal (position_set carRef (px lastPos) (lit 0.01) (pz lastPos))
    | None => TypeError
    end
  else if (timeIndex =? 0)%Z then
    if match item (times carData) 0 with
       | Some t0 => currentTime <=? t0
       | None => false
       end
    then
      (* Before start - use first position *)
      match item (positions_normalized carData) 0 with
      | Some firstPos => Normal (position_set carRef (px firstPos) (lit 0.01) (pz firstPos))
      | None => TypeError
      end
    else interpolate currentTime carData 1 carRef
  else interpolate currentTime carData timeIndex carRef.

(** [positions_normalized[0] || [0, 0, 0]] *)
Definition initialPos (carData : CarTelemetry) : Position :=
  match item (positions_normalized carData) 0 with
  | Some p => p
  | None => mkPosition (lit 0) (lit 0) (lit 0)
  end.

(** The body of [telemetry.forEach] for a car whose mesh is mounted. *)
Definition updateCar (playing : bool) (currentTime : num)
    (carData : CarTelemetry) (carRef : Mesh) : completion Mesh :=
  if negb playing && (currentTime === lit 0) then
    let p := initialPos carData in
    Normal (position_set carRef (px p) (lit 0.01) (pz p))
  else if negb playing then Normal carRef
  else sample currentTime carData carRef.

(** [telemetry.forEach] over the fleet, each car with its mesh ([None]
    when the ref is not mounted, which the callback skips).  An exception
    raised in one callback ends the loop. *)
Fixpoint forEachCar (playing : bool) (currentTime : num)
    (fleet : list (CarTelemetry * option Mesh))
    : completion (list (option Mesh)) :=
  match fleet with
  | [] => Normal []
  | (carData, None) :: rest =>
      match forEachCar playing currentTime rest with
      | Normal ms => Normal (None :: ms)
      | TypeError => TypeError
      end
  | (carData, Some carRef) :: rest =>
      match updateCar playing currentTime carData carRef with
      | Normal m =>
          match forEachCar playing currentTime rest with
          | Normal ms => Normal (Some m :: ms)
          | TypeError => TypeError
          end
      | TypeError => TypeError
      end
  end.

(** The loop that puts the cars back on their first position when the
    time has come back to 0. *)
Definition resetCars (fleet : list (CarTelemetry * option Mesh))
    : list (CarTelemetry * option Mesh) :=
  map (fun entry =>
         match entry with
         | (carData, Some carRef) =>
             let p := initialPos carData in
             (carData, Some (position_set carRef (px p) (lit 0.01) (pz p)))
         | (carData, None) => (carData, None)
         end) fleet.

(** The frame callback: the reset loop when the time is 0 after having
    been positive, then the loop over the fleet; [lastTimeRef] takes the
    current time in between.  (The logging is left out.) *)
Definition useFrame (playing : bool) (currentTime lastTimeRef : num)
    (fleet : list (CarTelemetry * option Mesh))
    : completion (list (option Mesh)) * num :=
  let fleet :=
    if (currentTime === lit 0) && (lastTimeRef >? lit 0) then resetCars fleet
    else fleet in
  (forEachCar playing currentTime fleet, currentTime).

(** The invariant of a time series: sample times in increasing order,
    strictly ([increasing]) or not ([nondecreasing]). *)
Fixpoint increasing (ts : list num) : bool :=
  match ts with
  | [] => true
  | a :: rest =>
      match rest with
      | [] => true
      | b :: _ => (a <? b) && increasing rest
      end
  end.

Fixpoint nondecreasing (ts : list num) : bool :=
  match ts with
  | [] => true
  | a :: rest =>
      match rest with
      | [] => true
      | b :: _ => (a <=? b) && nondecreasing rest
      end
  end.

End Cars.

Arguments Position num : clear implicits.
Arguments BrakeValue num : clear implicits.
Arguments CarTelemetry num : clear implicits.
Arguments Mesh num : clear implicits.

(* ================================================================== *)
(** * Track geometry: Track.tsx                                        *)
(* ================================================================== *)

Section Track.
Context {num : Type} {N : JSNumber num}.
Local Open Scope js_scope.

(** [THREE.Vector3] with the methods the component calls, as three.js
    defines them. *)
Record Vector3 : Type := mkVector3 { vx : num; vy : num; vz : num }.

Definition subVectors (a b : Vector3) : Vector3 :=
  mkVector3 (vx a - vx b) (vy a - vy b) (vz a - vz b).

Definition addVectors (a b : Vector3) : Vector3 :=
  mkVector3 (vx a + vx b) (vy a + vy b) (vz a + vz b).

(** [v.length()]: [Math.sqrt(x * x + y * y + z * z)] *)
Definition vlength (v : Vector3) : num :=
  Math_sqrt (vx v * vx v + vy v * vy v + vz v * vz v).

Definition multiplyScalar (v : Vector3) (s : num) : Vector3 :=
  mkVector3 (vx v * s) (vy v * s) (vz v * s).

(** [v.divideScalar(s)]: [v.multiplyScalar(1 / s)] *)
Definition divideScalar (v : Vector3) (s : num) : Vector3 :=
  multiplyScalar v (lit 1 / s).

(** [v.normalize()]: [v.divideScalar(v.length() || 1)] *)
Definition normalize (v : Vector3) : Vector3 :=
  divideScalar v (orElse (vlength v) (lit 1)).

(** [new Vector3().copy(p).addScaledVector(v, s)] *)
Definition addScaledVector (p v : Vector3) (s : num) : Vector3 :=
  mkVector3 (vx p + vx v * s) (vy p + vy v * s) (vz p + vz v * s).

(** [a.distanceTo(b)] *)
Definition distanceTo (a b : Vector3) : num :=
  let dx := vx a - vx b in
  let dy := vy a - vy b in
  let dz := vz a - vz b in
  Math_sqrt (dx * dx + dy * dy + dz * dz).

(** The value read at an index the loop keeps inside the array. *)
Definition origin : Vector3 := mkVector3 (lit 0) (lit 0) (lit 0).

(** The fixed width of the ribbon, in normalized units. *)
Definition trackWidth : num := lit 0.08.

(** A path entry becomes a centerline point when it is an array of at
    least three numbers whose [x] and [z] are neither [NaN] nor infinite;
    its [y] is dropped. *)
Definition centerPoint (point : list num) : option Vector3 :=
  if (3 <=? List.length point)%nat then
    match nth_error point 0, nth_error point 2 with
    | Some x, Some z =>
        if negb (isNaN x) && negb (isNaN z) && isFinite x && isFinite z
        then Some (mkVector3 x (lit 0) z)
        else None
    | _, _ => None
    end
  else None.

Fixpoint validPoints (trackPath : list (list num)) : list Vector3 :=
  match trackPath with
  | [] => []
  | point :: rest =>
      match centerPoint point with
      | Some p => p :: validPoints rest
      | None => validPoints rest
      end
  end.

(** The pair pushed on [innerPoints] and [outerPoints] for a normal. *)
Definition offsetPair (curr normal : Vector3) : Vector3 * Vector3 :=
  (addScaledVector curr normal (- trackWidth / lit 2),
   addScaledVector curr normal (trackWidth / lit 2)).

(** [new Vector3(-d.z, 0, d.x)], then the fallback or the normalization. *)
Definition perpendicular (d : Vector3) : Vector3 :=
  let normal := mkVector3 (- vz d) (lit 0) (vx d) in
  if vlength normal <? lit 0.0001 then mkVector3 (lit 1) (lit 0) (lit 0)
  else normalize normal.

Definition hasNaN (p : Vector3) : bool :=
  isNaN (vx p) || isNaN (vy p) || isNaN (vz p).

(** One iteration of the boundary loop, at index [i]: the pair it pushes. *)
Definition boundaryPair (points innerPoints outerPoints : list Vector3)
    (i : nat) : Vector3 * Vector3 :=
  let n := List.length points in
  let curr := nth i points origin in
  let prev := nth (if (0 <? i)%nat then i - 1 else n - 1)%nat points origin in
  let next := nth (if (i <? n - 1)%nat then i + 1 else 0)%nat points origin in
  let dir1 := subVectors curr prev in
  let dir2 := subVectors next curr in
  let dir1Len := vlength dir1 in
  let dir2Len := vlength dir2 in
  if (dir1Len <? lit 0.0001) || (dir2Len <? lit 0.0001) then
    (* Duplicate point or very close points - use previous normal or default *)
    if (0 <? List.length innerPoints)%nat then
      let prevNormal :=
        normalize (subVectors (last outerPoints origin) (last innerPoints origin)) in
      offsetPair curr prevNormal
    else
      offsetPair curr (mkVector3 (lit 1) (lit 0) (lit 0))
  else
    let dir1 := normalize dir1 in
    let dir2 := normalize dir2 in
    let avgDir := addVectors dir1 dir2 in
    if vlength avgDir <? lit 0.0001 then
      (* Directions are opposite - use perpendicular to dir1 *)
      offsetPair curr (perpendicular dir1)
    else
      let avgDir := normalize avgDir in
      let normal := perpendicular avgDir in
      let '(innerPoint, outerPoint) := offsetPair curr normal in
      if hasNaN innerPoint || hasNaN outerPoint then (curr, curr)
      else (innerPoint, outerPoint).

(** The loop [for (let i = 0; i < points.length; i++)], run over the
    indices still to visit, with the two arrays built so far. *)
Fixpoint boundaryLoop (points : list Vector3) (indices : list nat)
    (innerPoints outerPoints : list Vector3) : list Vector3 * list Vector3 :=
  match indices with
  | [] => (innerPoints, outerPoints)
  | i :: rest =>
      let '(innerPoint, outerPoint) := boundaryPair points innerPoints outerPoints i in
      boundaryLoop points rest (innerPoints ++ [innerPoint]) (outerPoints ++ [outerPoint])
  end.

Record Boundaries : Type := mkBoundaries {
  centerPoints : list Vector3;
  innerPoints  : list Vector3;
  outerPoints  : list Vector3
}.

(** The first [useMemo]: center, inner and outer points of a path. *)
Definition boundaries (trackPath : list (list num)) : Boundaries :=
  if (List.length trackPath <? 2)%nat then mkBoundaries [] [] []
  else
    let points := validPoints trackPath in
    if (List.length points <? 2)%nat then mkBoundaries [] [] []
    else
      let '(inner, outer) := boundaryLoop points (seq 0 (List.length points)) [] [] in
      mkBoundaries points inner outer.

(** The test of the three [filter] calls before rendering. *)
Definition validVector (p : Vector3) : bool :=
  negb (isNaN (vx p)) && negb (isNaN (vy p)) && negb (isNaN (vz p)) &&
  isFinite (vx p) && isFinite (vy p) && isFinite (vz p).

(** The buffers handed to [THREE.BufferGeometry]: three numbers per vertex,
    three vertex indices per triangle. *)
Record BufferGeometry : Type := mkBufferGeometry {
  vertices : list num;
  indices  : list nat
}.

(** [validInnerPoints.forEach((inner, i) => ...)]: inner and outer
    coordinates in turn; reading [outer.x] on a missing [validOuterPoints[i]]
    raises. *)
Fixpoint pushVertices (validInnerPoints validOuterPoints : list Vector3)
    (i : nat) : completion (list num) :=
  match validInnerPoints with
  | [] => Normal []
  | inner :: rest =>
      match nth_error validOuterPoints i with
      | None => TypeError
      | Some outer =>
          match pushVertices rest validOuterPoints (S i) with
          | Normal vs =>
              Normal (vx inner :: vy inner :: vz inner ::
                      vx outer :: vy outer :: vz outer :: vs)
          | TypeError => TypeError
          end
      end
  end.

(** The faces loop, from index [i] for [count] quads. *)
Fixpoint pushFaces (i count : nat) : list nat :=
  match count with
  | O => []
  | S c =>
      let base := (i * 2)%nat in
      [base; base + 1; base + 2; base + 1; base + 3; base + 2]%nat
        ++ pushFaces (S i) c
  end.

(** "Close loop if start/end are close": the two triangles that join the
    last pair to the first. *)
Definition closingFaces (validInnerPoints : list Vector3) : list nat :=
  let first := nth 0 validInnerPoints origin in
  let last_ := nth (List.length validInnerPoints - 1) validInnerPoints origin in
  if distanceTo first last_ <? lit 0.1 then
    let base := ((List.length validInnerPoints - 1) * 2)%nat in
    [base; base + 1; 0; base + 1; 1; 0]%nat
  else [].

(** The second [useMemo]: [null] below two points on a side. *)
Definition asphaltGeometry (validInnerPoints validOuterPoints : list Vector3)
    : completion (option BufferGeometry) :=
  if (List.length validInnerPoints <? 2)%nat || (List.length validOuterPoints <? 2)%nat
  then Normal None
  else
    match pushVertices validInnerPoints validOuterPoints 0 with
    | TypeError => TypeError
    | Normal vertices_ =>
        let faces := pushFaces 0 (List.length validInnerPoints - 1) in
        Normal (Some (mkBufferGeometry vertices_ (faces ++ closingFaces validInnerPoints)))
    end.

(** What the component renders: the surface and the two outlines. *)
Record TrackView : Type := mkTrackView {
  asphalt   : option BufferGeometry;
  outerLine : option (list Vector3);
  innerLine : option (list Vector3)
}.

Definition lineOf (pts : list Vector3) : option (list Vector3) :=
  if (1 <? List.length pts)%nat then Some pts else None.

(** The component: [null] ([None]) when there is nothing to render. *)
Definition Track (trackPath : list (list num)) : completion (option TrackView) :=
  let b := boundaries trackPath in
  if (List.length (centerPoints b) =? 0)%nat then Normal None
  else
    let validCenterPoints := filter validVector (centerPoints b) in
    let validInnerPoints := filter validVector (innerPoints b) in
    let validOuterPoints := filter validVector (outerPoints b) in
    if (List.length validCenterPoints <? 2)%nat then Normal None
    else
      match asphaltGeometry validInnerPoints validOuterPoints with
      | TypeError => TypeError
      | Normal geo =>
          Normal (Some (mkTrackView geo (lineOf validOuterPoints) (lineOf validInnerPoints)))
      end.

(** The index buffer of a rendered surface, if one is rendered. *)
Definition renderedIndices (r : completion (option TrackView)) : option (list nat) :=
  match r with
  | Normal (Some view) => option_map indices (asphalt view)
  | _ => None
  end.

(** The vertex buffer of a rendered surface, if one is rendered. *)
Definition renderedVertices (r : completion (option TrackView)) : option (list num) :=
  match r with
  | Normal (Some view) => option_map vertices (asphalt view)
  | _ => None
  end.

End Track.

Arguments Vector3 num : clear implicits.
Arguments Boundaries num : clear implicits.
Arguments BufferGeometry num : clear implicits.
Arguments TrackView num : clear implicits.

(* ================================================================== *)
(** * IEEE-754 binary64 numbers                                        *)
(* ================================================================== *)

Module Float64.

(** An integer as a double (exact below 2^53). *)
Definition of_Z (z : Z) : float :=
  match z with
  | Z0 => PrimFloat.zero
  | Zpos _ => PrimFloat.of_uint63 (Uint63.of_Z z)
  | Zneg p => PrimFloat.opp (PrimFloat.of_uint63 (Uint63.of_Z (Zpos p)))
  end.

(** A decimal literal [n / 10^k] as the double nearest to it: both parts
    are exact doubles and the division rounds to nearest, as the parser
    of a JavaScript engine does. *)
Definition of_literal (q : Q) : float :=
  PrimFloat.div (of_Z (Qnum q)) (of_Z (Zpos (Qden q))).

(** [Math.max] and [Math.min]: [NaN] if an argument is [NaN]; [+0] is
    larger than [-0]. *)
Definition max (a b : float) : float :=
  if PrimFloat.is_nan a || PrimFloat.is_nan b then PrimFloat.nan
  else if PrimFloat.ltb a b then b
  else if PrimFloat.ltb b a then a
  else if PrimFloat.get_sign a then b else a.

Definition min (a b : float) : float :=
  if PrimFloat.is_nan a || PrimFloat.is_nan b then PrimFloat.nan
  else if PrimFloat.ltb a b then a
  else if PrimFloat.ltb b a then b
  else if PrimFloat.get_sign a then a else b.

#[export] Instance number : JSNumber float := {
  lit       := of_literal;
  nadd      := PrimFloat.add;
  nsub      := PrimFloat.sub;
  nmul      := PrimFloat.mul;
  ndiv      := PrimFloat.div;
  nneg      := PrimFloat.opp;
  nltb      := PrimFloat.ltb;
  nleb      := PrimFloat.leb;
  neqb      := PrimFloat.eqb;
  Math_sqrt := PrimFloat.sqrt;
  Math_max  := max;
  Math_min  := min;
  isNaN     := PrimFloat.is_nan;
  isFinite  := PrimFloat.is_finite
}.

End Float64.
Export (hints) Float64.


(* ================================================================== *)
(** * Scenarios                                                        *)
(* ================================================================== *)

Module Scenario.

Definition pos (x y z : Q) : Position float := mkPosition (lit x) (lit y) (lit z).

(** Three samples one second apart, ten units apart along [x]. *)
Definition series (thr : list float) (brk : list (BrakeValue float))
    (spd : list float) : CarTelemetry float :=
  mkCarTelemetry "VER" [pos 0 0 0; pos 10 0 0; pos 20 0 0]
                 [lit 0; lit 1; lit 2] thr brk spd.

(** Two samples; the car brakes at the first and is at full throttle at
    the second. *)
Definition braking : CarTelemetry float :=
  mkCarTelemetry "HAM" [pos 0 0 0; pos 10 0 0] [lit 0; lit 1]
                 [lit 0; lit 100] [BrakeBool true; BrakeBool false]
                 [lit 80; lit 300].

(** Two samples with the same time stamp. *)
Definition stalled : CarTelemetry float :=
  mkCarTelemetry "LEC" [pos 0 0 0; pos 10 0 0] [lit 1; lit 1]
                 [lit 0; lit 0] [BrakeBool false; BrakeBool false]
                 [lit 0; lit 0].

(** A car with no sample at all. *)
Definition empty : CarTelemetry float :=
  mkCarTelemetry "SAI" [] [] [] [] [].

(** A mounted mesh, white, away from every sample. *)
Definition mesh0 : Mesh float := mkMesh (pos 7 7 7) "#FFFFFF".

Definition point (x y z : Q) : list float := [lit x; lit y; lit z].

Definition vec (x y z : Q) : Vector3 float := mkVector3 (lit x) (lit y) (lit z).

(** Three points along the [x] axis. *)
Definition straight : list (list float) :=
  [point 0 0 0; point 1 0 0; point 2 0 0].

(** Two points 0.09 apart. *)
Definition short : list (list float) := [point 0 0 0; point 0.09 0 0].


(** A square walked with its second corner repeated. *)
Definition repeated : list (list float) :=
  [point 0 0 0; point 1 0 0; point 1 0 0; point 1 0 1; point 0 0 1].

(** A path that starts and ends on the same point, given twice at the
    start. *)
Definition repeatedStart : list (list float) :=
  [point 0 0 0; point 0 0 0; point 1 0 0; point 0 0 0].

(** An open hairpin whose two ends are 0.15 apart. *)
Definition hairpin : list (list float) :=
  [point 0 0 0; point 0.99 0 0.14; point (-0.84) 0 0.14; point 0.15 0 0].

(** The speeds the two speed buttons can reach from the initial 1.0. *)
Definition speedGrid : list float :=
  [lit 0.5; lit 1; lit 1.5; lit 2; lit 2.5; lit 3; lit 3.5; lit 4; lit 4.5; lit 5].

Definition playing : RaceControls float :=
  mkRaceControls true (lit 2) (lit 0) (lit 10).

Definition paused : RaceControls float :=
  mkRaceControls false (lit 2) (lit 0) (lit 10).

End Scenario.

(* ================================================================== *)
(** * Scene set-up: ARScene.tsx                                        *)
(* ================================================================== *)

Section ARScene.
Context {num : Type} {N : JSNumber num}.
Local Open Scope js_scope.

(** The global [Infinity], which is the value of [1 / 0]. *)
Definition Infinity : num := lit 1 / lit 0.

(** The number an [undefined] operand becomes in arithmetic and in
    [Math.min] and [Math.max]: [NaN], the value of [0 / 0]. *)
Definition undefinedNumber : num := lit 0 / lit 0.

(** [(pos[0] - startPos[0]) ** 2 + (pos[2] - startPos[2]) ** 2], the
    square [d ** 2] being taken as [d * d]. *)
Definition distSq (pos startPos : Position num) : num :=
  (px pos - px startPos) * (px pos - px startPos)
  + (pz pos - pz startPos) * (pz pos - pz startPos).

(** The indices [0, 10, 20, ...] below [n] that the movement loop visits. *)
Definition strideIndices (n : nat) : list nat :=
  map (fun k => k * 10)%nat (seq 0 ((n + 9) / 10)).

(** Whether the sample [i] of a car is away from its first position. *)
Definition movedAt (positions : list (Position num)) (startPos : Position num)
    (i : nat) : bool :=
  match nth_error positions i with
  | Some pos => distSq pos startPos >? lit 0.0001
  | None => false
  end.

(** The index at which the inner loop breaks, if it does. *)
Definition firstMoveIndex (positions : list (Position num))
    (startPos : Position num) : option nat :=
  find (movedAt positions startPos) (strideIndices (List.length positions)).

(** One turn of [for (const car of carsToCheck)] on the pair
    [(firstMoveTime, found)]. *)
Definition checkCar (st : num * bool) (car : CarTelemetry num) : num * bool :=
  match nth_error (positions_normalized car) 0 with
  | None => st
  | Some startPos =>
      match firstMoveIndex (positions_normalized car) startPos with
      | None => st
      | Some i =>
          match nth_error (times car) i with
          | Some ti => if ti <? fst st then (ti, true) else st
          | None => st
          end
      end
  end.

(** The loop over the first five cars, from [(Infinity, false)]. *)
Definition firstMove (telemetry : list (CarTelemetry num)) : num * bool :=
  fold_left checkCar (firstn 5 telemetry) (Infinity, false).

(** The effect that detects the start of the race, once the data is
    loaded: the clock and the [hasSetStartTime] flag before and after. *)
Definition detectStart (telemetry : list (CarTelemetry num))
    (hasSetStartTime : bool) (s : RaceControls num) : RaceControls num * bool :=
  if negb hasSetStartTime then
    let '(firstMoveTime, found) := firstMove telemetry in
    if found && negb (firstMoveTime === Infinity) then
      (setTime (Math_max (lit 0) (firstMoveTime - lit 2)) s, true)
    else (s, hasSetStartTime)
  else (s, hasSetStartTime).

(** The component [k] of a destructured path entry. *)
Definition component (point : list num) (k : nat) : num :=
  match nth_error point k with
  | Some v => v
  | None => undefinedNumber
  end.

Record Bounds : Type := mkBounds {
  minX : num; maxX : num;
  minY : num; maxY : num;
  minZ : num; maxZ : num
}.

(** The body of [trackPath.forEach(([x, y, z]) => ...)]. *)
Definition growBounds (b : Bounds) (point : list num) : Bounds :=
  let x := component point 0 in
  let y := component point 1 in
  let z := component point 2 in
  mkBounds (Math_min (minX b) x) (Math_max (maxX b) x)
           (Math_min (minY b) y) (Math_max (maxY b) y)
           (Math_min (minZ b) z) (Math_max (maxZ b) z).

(** The bounds of the path, grown from [Infinity] and [-Infinity]. *)
Definition trackBounds (trackPath : list (list num)) : Bounds :=
  fold_left growBounds trackPath
    (mkBounds Infinity (- Infinity) Infinity (- Infinity) Infinity (- Infinity)).

End ARScene.

Arguments Bounds num : clear implicits.

(* ================================================================== *)
(** * Pointing and clicking: ARControls.tsx                            *)
(* ================================================================== *)

Section Pointing.
Context {num : Type} {N : JSNumber num}.
Local Open Scope js_scope.

(** What a frame reads from the controller: for each button, the
    distance of the first intersection of the ray with its mesh (none when
    the mesh is not mounted or not hit), and whether the trigger is
    pressed. *)
Record Controller : Type := mkController {
  intersects : Button -> option num;
  pressed    : bool
}.

(** [hoveredButton], [triggerPressedRef] and [lastTriggerTimeRef] (a
    [Date.now()] value, in milliseconds). *)
Record Pointer : Type := mkPointer {
  hoveredButton      : option Button;
  triggerPressedRef  : bool;
  lastTriggerTimeRef : Z
}.

(** [useState(null)], [useRef(false)], [useRef(0)]. *)
Definition initialPointer : Pointer := mkPointer None false 0.

(** The buttons in the order of the [buttons] array. *)
Definition buttons : list Button :=
  [play; resetButton; speedUpButton; speedDownButton].

(** One turn of [buttons.forEach] on the pair
    [(hitButton, closestDistance)]. *)
Definition raycastButton (c : Controller) (st : option Button * num)
    (name : Button) : option Button * num :=
  match intersects c name with
  | Some distance => if distance <? snd st then (Some name, distance) else st
  | None => st
  end.

Definition raycast (c : Controller) : option Button * num :=
  fold_left (raycastButton c) buttons (None, Infinity).

Definition hitButton (c : Controller) : option Button := fst (raycast c).

(** [hitButton || hoveredButton] *)
Definition buttonToClick (hit hovered : option Button) : option Button :=
  match hit with
  | Some b => Some b
  | None => hovered
  end.

(** Whether the frame takes the trigger press as a click. *)
Definition clicked (c : Controller) (now : Z) (p : Pointer) : bool :=
  pressed c && negb (triggerPressedRef p) && (300 <? now - lastTriggerTimeRef p)%Z.

(** The frame callback, with the controller of the frame if there is one
    and the value of [Date.now()]. *)
Definition pointerFrame (controller : option Controller) (now : Z)
    (p : Pointer) (s : RaceControls num) : Pointer * RaceControls num :=
  match controller with
  | None => (p, s)
  | Some c =>
      let hit := hitButton c in
      if pressed c then
        if negb (triggerPressedRef p) && (300 <? now - lastTriggerTimeRef p)%Z then
          (mkPointer hit true now,
           match buttonToClick hit (hoveredButton p) with
           | Some b => buttonAction b s
           | None => s
           end)
        else (mkPointer hit (triggerPressedRef p) (lastTriggerTimeRef p), s)
      else (mkPointer hit false (lastTriggerTimeRef p), s)
  end.

(** A run of frames: the state after them, and the times of the clicks
    taken on the way. *)
Fixpoint pointerRun (frames : list (option Controller * Z))
    (p : Pointer) (s : RaceControls num) : Pointer * RaceControls num * list Z :=
  match frames with
  | [] => (p, s, [])
  | (controller, now) :: rest =>
      let '(p', s') := pointerFrame controller now p s in
      let '(p'', s'', ts) := pointerRun rest p' s' in
      (p'', s'',
       match controller with
       | Some c => if clicked c now p then now :: ts else ts
       | None => ts
       end)
  end.

End Pointing.

Arguments Controller num : clear implicits.

(* ================================================================== *)
(** * Shapes of results, and more scenarios                            *)
(* ================================================================== *)

(** Click times that respect the debounce of the trigger: the first more
    than 300 ms after [last], each of the others more than 300 ms after the
    one before it. *)
Fixpoint debounced (last : Z) (ts : list Z) : Prop :=
  match ts with
  | [] => True
  | t :: rest => (300 < t - last)%Z /\ debounced t rest
  end.

Module Panel.

(** A controller whose ray meets one button, one unit away. *)
Definition pointAt (b : Button) (trigger : bool) : Controller float :=
  mkController
    (fun name => if Button_eq_dec name b then Some (lit 1) else None) trigger.

(** A car that stands for ten samples and has moved at the eleventh. *)
Definition launch : CarTelemetry float :=
  mkCarTelemetry "NOR"
    (repeat (Scenario.pos 0 0 0) 10 ++ [Scenario.pos 1 0 0])
    (map (fun k => lit (inject_Z (Z.of_nat k))) (seq 0 11))
    [] [] [].

End Panel.

(* ================================================================== *)
(** * The meshes by driver name: Cars.tsx                              *)
(* ================================================================== *)

Section CarRefs.
Context {num : Type} {N : JSNumber num}.

(** [carRefs.current], the object the [ref] callbacks fill: the mounted
    mesh of each driver name.  Two telemetry entries with one driver name
    reach the same mesh.  (Driver names are taken not to be names an empty
    object inherits, such as [constructor], under which the lookup finds
    something that is not a mesh.) *)
Definition CarRefs : Type := string -> option (Mesh num).

(** The mesh found under [name] after it has been written to. *)
Definition setRef (carRefs : CarRefs) (name : string) (m : Mesh num) : CarRefs :=
  fun d => if String.eqb d name then Some m else carRefs d.

(** [telemetry.forEach] with the lookup [carRefs.current[carData.driver]]
    of the source: each callback works on the mesh found under the driver
    name, as the callbacks before it left it. *)
Fixpoint forEachDriver (playing : bool) (currentTime : num)
    (telemetry : list (CarTelemetry num)) (carRefs : CarRefs)
    : completion CarRefs :=
  match telemetry with
  | [] => Normal carRefs
  | carData :: rest =>
      match carRefs (driver carData) with
      | None => forEachDriver playing currentTime rest carRefs
      | Some carRef =>
          match updateCar playing currentTime carData carRef with
          | Normal m =>
              forEachDriver playing currentTime rest
                (setRef carRefs (driver carData) m)
          | TypeError => TypeError
          end
      end
  end.

End CarRefs.

Arguments CarRefs num : clear implicits.

(* ================================================================== *)
(** * Renders of the track component: Track.tsx                        *)
(* ================================================================== *)

Section Renders.
Context {num : Type} {N : JSNumber num}.

(** The hooks a render of [Track] calls: the first [useMemo] always, the
    second only when neither early [return null] is taken. *)
Definition hooksOf (trackPath : list (list num)) : nat :=
  let b := boundaries trackPath in
  if (List.length (centerPoints b) =? 0)%nat then 1
  else if (List.length (filter validVector (centerPoints b)) <? 2)%nat then 1
  else 2.

(** What a render comes to: the component returns (or raises inside its
    own code), or React raises because the render calls another number of
    hooks than the render before it. *)
Inductive rendering : Type :=
| Returned (r : completion (option (TrackView num)))
| HookOrderError.

(** A render of the component with [trackPath]; [previous] is the path of
    the render before it when the component is already mounted. *)
Definition renderTrack (previous : option (list (list num)))
    (trackPath : list (list num)) : rendering :=
  match previous with
  | None => Returned (Track trackPath)
  | Some before =>
      if (hooksOf before =? hooksOf trackPath)%nat then Returned (Track trackPath)
      else HookOrderError
  end.

End Renders.

Arguments rendering num : clear implicits.

(* ================================================================== *)
(** * Straight paths along an axis                                     *)
(* ================================================================== *)

Module Straight.
Local Open Scope js_scope.








End Straight.

Module Fleet.

(** Four samples, the second and the third with the same time stamp. *)
Definition doubled : CarTelemetry float :=
  mkCarTelemetry "ALO"
    [Scenario.pos 0 0 0; Scenario.pos 10 0 0; Scenario.pos 20 0 0; Scenario.pos 30 0 0]
    [lit 0; lit 1; lit 1; lit 2]
    [lit 0; lit 100; lit 0; lit 0] [] [].

(** Two telemetry entries with the driver name of [Scenario.braking]: the
    second one has a single sample. *)
Definition twin : CarTelemetry float :=
  mkCarTelemetry "HAM" [Scenario.pos 5 0 5] [lit 0] [] [] [].

(** The mesh of ["HAM"] mounted, and no other. *)
Definition oneMesh : CarRefs float :=
  setRef (fun _ => None) "HAM" Scenario.mesh0.

End Fleet.

Unset Implicit Arguments.

(* ================================================================== *)
(** * Proof tactics                                                    *)
(* ================================================================== *)

(** Case analysis on the comparisons of two specification floats. *)
Ltac sf_cases :=
  repeat match goal with
  | |- context [Z.compare ?x ?y] => destruct (Z.compare_spec x y)
  | H : context [Z.compare ?x ?y] |- _ => destruct (Z.compare_spec x y)
  | |- context [Pos.compare_cont Eq ?x ?y] =>
      change (Pos.compare_cont Eq x y) with (Pos.compare x y);
      destruct (Pos.compare_spec x y)
  | H : context [Pos.compare_cont Eq ?x ?y] |- _ =>
      change (Pos.compare_cont Eq x y) with (Pos.compare x y) in H;
      destruct (Pos.compare_spec x y)
  end.

(** Order facts on specification floats, by cases on their shape. *)
Ltac sf_solve :=
  intros;
  repeat match goal with
  | x : spec_float |- _ => destruct x as [[]|[]| |[] ? ?]
  end;
  simpl in *; try congruence; sf_cases; simpl in *; subst;
  try congruence; try lia.



(* ================================================================== *)
(** * Arrays                                                           *)
(* ================================================================== *)

Section FindIndex.
Context {A : Type} (p : A -> bool).

Lemma findIndex_from_first (arr : list A) : forall (k : Z) (i : nat) (a : A),
  nth_error arr i = Some a -> p a = true ->
  (forall j b, (j < i)%nat -> nth_error arr j = Some b -> p b = false) ->
  findIndex_from p arr k = (k + Z.of_nat i)%Z.
Proof.
  induction arr as [|x rest IH]; intros k i a Hi Hp Hbefore.
  - destruct i; discriminate.
  - destruct i as [|i]; simpl in *.
    + injection Hi as ->. rewrite Hp. lia.
    + rewrite (Hbefore 0%nat x) by (simpl; auto; lia).
      rewrite (IH (k + 1)%Z i a); auto.
      * lia.
      * intros j b Hj Hb. apply (Hbefore (S j) b); auto. lia.
Qed.

Lemma findIndex_from_none (arr : list A) : forall (k : Z),
  (forall a, In a arr -> p a = false) -> findIndex_from p arr k = (-1)%Z.
Proof.
  induction arr as [|x rest IH]; intros k Hall; simpl; auto.
  rewrite (Hall x) by (left; reflexivity).
  apply IH. intros a Ha. apply Hall. right; exact Ha.
Qed.


End FindIndex.

Lemma item_of_nat {A : Type} (arr : list A) (i : nat) :
  item arr (Z.of_nat i) = nth_error arr i.
Proof.
  unfold item. destruct (Z.ltb_spec (Z.of_nat i) 0); [lia|].
  now rewrite Nat2Z.id.
Qed.

(* ================================================================== *)
(** * Order on binary64                                                *)
(* ================================================================== *)

Module Float64Order.

Lemma SFltb_trans a b c :
  SFltb a b = true -> SFltb b c = true -> SFltb a c = true.
Proof. unfold SFltb. sf_solve. Qed.

Lemma SFleb_ltb_trans a b c :
  SFleb a b = true -> SFltb b c = true -> SFltb a c = true.
Proof. unfold SFltb, SFleb. sf_solve. Qed.

Lemma SFltb_leb_trans a b c :
  SFltb a b = true -> SFleb b c = true -> SFltb a c = true.
Proof. unfold SFltb, SFleb. sf_solve. Qed.

Lemma SFleb_trans a b c :
  SFleb a b = true -> SFleb b c = true -> SFleb a c = true.
Proof. unfold SFleb. sf_solve. Qed.

Lemma SFltb_not_leb a b : SFltb a b = true -> SFleb b a = false.
Proof. unfold SFltb, SFleb. sf_solve. Qed.

Lemma SFltb_leb a b : SFltb a b = true -> SFleb a b = true.
Proof. unfold SFltb, SFleb. sf_solve. Qed.

Lemma SFeqb_leb a b : SFeqb a b = true -> SFleb a b = true.
Proof. unfold SFeqb, SFleb. sf_solve. Qed.


Section Laws.
Local Open Scope js_scope.
Implicit Types a b c t : float.

Lemma ltb_trans a b c : (a <? b) = true -> (b <? c) = true -> (a <? c) = true.
Proof. cbn. rewrite !FloatAxioms.ltb_spec. apply SFltb_trans. Qed.

Lemma leb_ltb_trans a b c : (a <=? b) = true -> (b <? c) = true -> (a <? c) = true.
Proof. cbn. rewrite !FloatAxioms.ltb_spec, FloatAxioms.leb_spec. apply SFleb_ltb_trans. Qed.

Lemma ltb_leb_trans a b c : (a <? b) = true -> (b <=? c) = true -> (a <? c) = true.
Proof. cbn. rewrite !FloatAxioms.ltb_spec, FloatAxioms.leb_spec. apply SFltb_leb_trans. Qed.

Lemma leb_trans a b c : (a <=? b) = true -> (b <=? c) = true -> (a <=? c) = true.
Proof. cbn. rewrite !FloatAxioms.leb_spec. apply SFleb_trans. Qed.

Lemma ltb_not_geb a b : (a <? b) = true -> (a >=? b) = false.
Proof. cbn. rewrite FloatAxioms.ltb_spec, FloatAxioms.leb_spec. apply SFltb_not_leb. Qed.

Lemma ltb_leb a b : (a <? b) = true -> (a <=? b) = true.
Proof. cbn. rewrite FloatAxioms.ltb_spec, FloatAxioms.leb_spec. apply SFltb_leb. Qed.

Lemma eqb_leb a b : (a === b) = true -> (a <=? b) = true.
Proof. cbn. rewrite FloatAxioms.eqb_spec, FloatAxioms.leb_spec. apply SFeqb_leb. Qed.


End Laws.

End Float64Order.

(* ================================================================== *)
(** * Time series                                                      *)
(* ================================================================== *)

Section Series.
Import Float64Order.
Local Open Scope js_scope.

Lemma increasing_head (a : float) (rest : list float) :
  increasing (a :: rest) = true ->
  forall i b, nth_error rest i = Some b -> (a <? b) = true.
Proof.
  revert a. induction rest as [|x rest IH]; intros a Hinc i b Hi.
  - destruct i; discriminate.
  - simpl in Hinc. apply andb_prop in Hinc as [Hax Hrest].
    destruct i as [|i]; simpl in Hi.
    + now injection Hi as <-.
    + apply ltb_trans with x; auto. apply (IH x Hrest i b Hi).
Qed.

Lemma increasing_tail (a : float) (rest : list float) :
  increasing (a :: rest) = true -> increasing rest = true.
Proof.
  simpl. destruct rest; auto. intros H. now apply andb_prop in H.
Qed.

Lemma increasing_nth (ts : list float) : forall j i a b,
  increasing ts = true -> (j < i)%nat ->
  nth_error ts j = Some a -> nth_error ts i = Some b -> (a <? b) = true.
Proof.
  induction ts as [|x rest IH]; intros j i a b Hinc Hji Hj Hi.
  - destruct j; discriminate.
  - destruct i as [|i]; [lia|]. destruct j as [|j]; simpl in *.
    + injection Hj as <-. eapply increasing_head; eauto.
    + apply (IH j i); auto; try lia. eapply increasing_tail; eauto.
Qed.

Lemma nondecreasing_head (a : float) (rest : list float) :
  nondecreasing (a :: rest) = true ->
  forall i b, nth_error rest i = Some b -> (a <=? b) = true.
Proof.
  revert a. induction rest as [|x rest IH]; intros a Hinc i b Hi.
  - destruct i; discriminate.
  - simpl in Hinc. apply andb_prop in Hinc as [Hax Hrest].
    destruct i as [|i]; simpl in Hi.
    + now injection Hi as <-.
    + apply leb_trans with x; auto. apply (IH x Hrest i b Hi).
Qed.

Lemma nondecreasing_tail (a : float) (rest : list float) :
  nondecreasing (a :: rest) = true -> nondecreasing rest = true.
Proof.
  simpl. destruct rest; auto. intros H. now apply andb_prop in H.
Qed.

Lemma nondecreasing_nth (ts : list float) : forall j i a b,
  nondecreasing ts = true -> (j < i)%nat ->
  nth_error ts j = Some a -> nth_error ts i = Some b -> (a <=? b) = true.
Proof.
  induction ts as [|x rest IH]; intros j i a b Hinc Hji Hj Hi.
  - destruct j; discriminate.
  - destruct i as [|i]; [lia|]. destruct j as [|j]; simpl in *.
    + injection Hj as <-. eapply nondecreasing_head; eauto.
    + apply (IH j i); auto; try lia. eapply nondecreasing_tail; eauto.
Qed.

(** The index [findIndex] returns for a query strictly inside the series. *)
Lemma locate_between (ts : list float) (t : float) (i : nat) (prevTime nextTime : float) :
  increasing ts = true -> (1 <= i)%nat ->
  nth_error ts (i - 1) = Some prevTime -> nth_error ts i = Some nextTime ->
  (prevTime <? t) = true -> (t <=? nextTime) = true ->
  findIndex (fun x => x >=? t) ts = Z.of_nat i.
Proof.
  intros Hinc Hi Hprev Hnext Hlo Hhi. unfold findIndex.
  rewrite findIndex_from_first with (i := i) (a := nextTime); auto.
  intros j b Hj Hb. apply ltb_not_geb.
  destruct (Nat.eq_dec j (i - 1)) as [->|Hne].
  - rewrite Hprev in Hb. now injection Hb as <-.
  - apply ltb_trans with prevTime; auto.
    apply (increasing_nth ts j (i - 1)); auto. lia.
Qed.

End Series.

(* ================================================================== *)
(** * The playback clock                                               *)
(* ================================================================== *)

Section ClockProperties.
Local Open Scope js_scope.

(** C8. [advanceTime] leaves the whole state as it is when the clock is
    not playing; when it is playing, the elapsed time ([currentTimeRef])
    grows by [delta * playbackSpeed] and the play flag, the speed and the
    displayed time keep their values. *)
Theorem advanceTime_frame :
  forall (num : Type) (N : JSNumber num) (s : RaceControls num) (delta : num),
    (isPlaying s = false -> advanceTime delta s = s) /\
    (isPlaying s = true ->
       currentTimeRef (advanceTime delta s) = currentTimeRef s + delta * playbackSpeed s /\
       isPlaying (advanceTime delta s) = isPlaying s /\
       playbackSpeed (advanceTime delta s) = playbackSpeed s /\
       currentTimeState (advanceTime delta s) = currentTimeState s).
Proof.
  intros num N s delta. unfold advanceTime. split; intros Hp; rewrite Hp; simpl.
  - reflexivity.
  - repeat split; reflexivity.
Qed.

Lemma advanceTime_frame_witness :
  advanceTime (lit 0.016) Scenario.paused = Scenario.paused /\
  currentTimeRef (advanceTime (lit 0.016) Scenario.playing)
    = currentTimeRef Scenario.playing + lit 0.016 * playbackSpeed Scenario.playing.
Proof.
  split.
  - apply (proj1 (advanceTime_frame float _ Scenario.paused (lit 0.016))).
    reflexivity.
  - apply (proj2 (advanceTime_frame float _ Scenario.playing (lit 0.016))).
    reflexivity.
Defined.

Lemma speedGrid_bounds (x : float) :
  In x Scenario.speedGrid -> (lit 0.5 <=? x) = true /\ (x <=? lit 5) = true.
Proof.
  unfold Scenario.speedGrid. simpl.
  intros H; repeat (destruct H as [<-|H]; [split; vm_compute; reflexivity|]).
  contradiction.
Qed.

Lemma buttonAction_speedGrid (b : Button) (s : RaceControls float) :
  In (playbackSpeed s) Scenario.speedGrid -> In (playbackSpeed (buttonAction b s)) Scenario.speedGrid.
Proof.
  intros H. destruct b; simpl; auto.
  - unfold Scenario.speedGrid in H. simpl in H.
    repeat (destruct H as [<-|H]; [vm_compute; tauto|]). contradiction.
  - unfold Scenario.speedGrid in H. simpl in H.
    repeat (destruct H as [<-|H]; [vm_compute; tauto|]). contradiction.
Qed.

Lemma fold_buttonAction_speedGrid (bs : list Button) : forall (s : RaceControls float),
  In (playbackSpeed s) Scenario.speedGrid ->
  In (playbackSpeed (fold_left (fun s b => buttonAction b s) bs s)) Scenario.speedGrid.
Proof.
  induction bs as [|b bs IH]; intros s Hs; simpl; auto.
  apply IH. now apply buttonAction_speedGrid.
Qed.

(** C9 (as the code has it). [setPlaybackSpeed] stores the speed it is
    given, whatever it is.  The bounds are applied by the two speed buttons
    of the AR panel: [speedUp] stores [Math.min(5, speed + 0.5)], which is
    never above 5, [speedDown] stores [Math.max(0.5, speed - 0.5)], which is
    never below 0.5, and whatever buttons are clicked from the initial state
    the speed stays between 0.5 and 5. *)
Theorem speed_clamped_by_buttons :
  (forall (m : float) (s : RaceControls float),
     playbackSpeed (setPlaybackSpeed m s) = m) /\
  (forall s : RaceControls float,
     playbackSpeed (speedUp s) = Math_min (lit 5) (playbackSpeed s + lit 0.5) /\
     (playbackSpeed (speedUp s) >? lit 5) = false) /\
  (forall s : RaceControls float,
     playbackSpeed (speedDown s) = Math_max (lit 0.5) (playbackSpeed s - lit 0.5) /\
     (playbackSpeed (speedDown s) <? lit 0.5) = false) /\
  (forall bs : list Button,
     (lit 0.5 <=? playbackSpeed (clicks (num := float) bs)) = true /\
     (playbackSpeed (clicks (num := float) bs) <=? lit 5) = true).
Proof.
  split; [reflexivity|]. split; [|split].
  - intros s. split; [reflexivity|]. simpl.
    generalize (PrimFloat.add (playbackSpeed s) (Float64.of_literal 0.5)). intros x.
    unfold Float64.min.
    destruct (PrimFloat.is_nan (Float64.of_literal 5) || PrimFloat.is_nan x); [reflexivity|].
    destruct (PrimFloat.ltb (Float64.of_literal 5) x) eqn:H1; [reflexivity|].
    destruct (PrimFloat.ltb x (Float64.of_literal 5)) eqn:H2; [exact H1|].
    destruct (PrimFloat.get_sign (Float64.of_literal 5)); [reflexivity | exact H1].
  - intros s. split; [reflexivity|]. simpl.
    generalize (PrimFloat.sub (playbackSpeed s) (Float64.of_literal 0.5)). intros x.
    unfold Float64.max.
    destruct (PrimFloat.is_nan (Float64.of_literal 0.5) || PrimFloat.is_nan x); [reflexivity|].
    destruct (PrimFloat.ltb (Float64.of_literal 0.5) x) eqn:H1.
    + apply Bool.not_true_is_false. intros H2.
      pose proof (Float64Order.ltb_trans _ _ _ H1 H2) as H3.
      vm_compute in H3. discriminate.
    + destruct (PrimFloat.ltb x (Float64.of_literal 0.5)) eqn:H2; [reflexivity|].
      destruct (PrimFloat.get_sign (Float64.of_literal 0.5)); [exact H2 | reflexivity].
  - intros bs. apply speedGrid_bounds. unfold clicks.
    apply fold_buttonAction_speedGrid. vm_compute. tauto.
Qed.

(** C9 as stated fails: [setPlaybackSpeed(10)] stores 10, which is not
    [min(5, max(0.5, 10)) = 5]. *)
Lemma setPlaybackSpeed_not_clamped :
  playbackSpeed (setPlaybackSpeed (lit 10) RaceControlsProvider) = lit 10 /\
  Math_min (lit 5) (Math_max (lit 0.5) (lit 10)) = lit 5 /\
  (playbackSpeed (setPlaybackSpeed (lit 10) RaceControlsProvider)
     === Math_min (lit 5) (Math_max (lit 0.5) (lit 10))) = false.
Proof. repeat split; vm_compute; reflexivity. Qed.

End ClockProperties.

(* ================================================================== *)
(** * Telemetry sampling                                               *)
(* ================================================================== *)

Section SamplingProperties.
Import Float64Order.
Local Open Scope js_scope.

(** C1 (as the code has it). With strictly increasing sample times and a
    query time [t] strictly between [times[i-1]] and [times[i]], [i >= 1],
    the sampling pass places the car at [x] and [z] interpolated linearly
    between the positions [i-1] and [i] with the fraction
    [max(0, min(1, (t - times[i-1]) / (times[i] - times[i-1])))], at the fixed
    height 0.01, and colours it from [throttle[i]] and [brake[i]] (the speed
    channel is not read).  For times [0, 1, 2] and positions
    [(0,0,0), (10,0,0), (20,0,0)] the query 0.5 gives the position
    [(5, 0.01, 0)]. *)
Theorem sample_interpolates :
  (forall (carData : CarTelemetry float) (carRef : Mesh float) (t : float)
          (i : nat) (prevTime nextTime : float)
          (prevPos nextPos : Position float),
     increasing (times carData) = true ->
     (1 <= i)%nat ->
     nth_error (times carData) (i - 1) = Some prevTime ->
     nth_error (times carData) i = Some nextTime ->
     nth_error (positions_normalized carData) (i - 1) = Some prevPos ->
     nth_error (positions_normalized carData) i = Some nextPos ->
     (prevTime <? t) = true -> (t <? nextTime) = true ->
     let f := Math_max (lit 0) (Math_min (lit 1)
                ((t - prevTime) / (nextTime - prevTime))) in
     sample t carData carRef =
       Normal (mkMesh
         (mkPosition (lerp (px prevPos) (px nextPos) f) (lit 0.01)
                     (lerp (pz prevPos) (pz nextPos) f))
         (carColor (orElse_undef (nth_error (throttle carData) i) (lit 0))
                   (brake_truthy (nth_error (brake carData) i))))) /\
  (forall thr brk spd carRef,
     exists c,
       sample (lit 0.5) (Scenario.series thr brk spd) carRef =
         Normal (mkMesh (mkPosition (lit 5) (lit 0.01) (lit 0)) c)).
Proof.
  split.
  - intros carData carRef t i prevTime nextTime prevPos nextPos
           Hinc Hi Hprev Hnext Hpp Hnp Hlo Hhi f.
    unfold sample.
    rewrite (locate_between (times carData) t i prevTime nextTime)
      by (auto using ltb_leb).
    destruct (Z.eqb_spec (Z.of_nat i) (-1)); [lia|].
    destruct (Z.eqb_spec (Z.of_nat i) 0); [lia|].
    unfold interpolate.
    replace (Z.of_nat i - 1)%Z with (Z.of_nat (i - 1)) by lia.
    rewrite !item_of_nat, Hprev, Hnext, Hpp, Hnp.
    reflexivity.
  - intros thr brk spd carRef. eexists. vm_compute. reflexivity.
Qed.

Lemma sample_interpolates_witness :
  sample (lit 1.25) (Scenario.series [] [] []) Scenario.mesh0 =
    Normal (mkMesh (mkPosition (lit 12.5) (lit 0.01) (lit 0)) "#FFFFFF").
Proof.
  exact (proj1 sample_interpolates (Scenario.series [] [] []) Scenario.mesh0
           (lit 1.25) 2%nat (lit 1) (lit 2) (Scenario.pos 10 0 0)
           (Scenario.pos 20 0 0) eq_refl (le_S _ _ (le_n 1)) eq_refl eq_refl
           eq_refl eq_refl eq_refl eq_refl).
Defined.

(** C1 as stated fails on its example: the position returned for the
    query 0.5 is not [(5, 0, 0)], its height is 0.01. *)
Lemma sample_example_height :
  ~ (exists c,
       sample (lit 0.5) (Scenario.series [] [] []) Scenario.mesh0 =
         Normal (mkMesh (mkPosition (lit 5) (lit 0) (lit 0)) c)).
Proof.
  intros [c H].
  apply (f_equal (fun r => match r with
                           | Normal m => py (position m) === lit 0
                           | TypeError => true
                           end)) in H.
  vm_compute in H. discriminate.
Qed.

(** Every sample time is below a query beyond the last one. *)
Lemma locate_past_end (ts : list float) (t tl : float) :
  nondecreasing ts = true -> lastItem ts = Some tl -> (tl <? t) = true ->
  findIndex (fun x => x >=? t) ts = (-1)%Z.
Proof.
  intros Hnd Hlast Hlt. unfold findIndex. apply findIndex_from_none.
  intros a Ha. apply ltb_not_geb.
  apply In_nth_error in Ha as [j Hj].
  unfold lastItem in Hlast.
  assert (Hlen : (j < List.length ts)%nat)
    by (apply nth_error_Some; congruence).
  replace (Z.of_nat (List.length ts) - 1)%Z
    with (Z.of_nat (List.length ts - 1)) in Hlast by lia.
  rewrite item_of_nat in Hlast.
  destruct (Nat.eq_dec j (List.length ts - 1)) as [->|Hne].
  - rewrite Hlast in Hj. now injection Hj as <-.
  - apply leb_ltb_trans with tl; auto.
    apply (nondecreasing_nth ts j (List.length ts - 1)); auto. lia.
Qed.

(** C2 (as the code has it). For a query at or before the first sample
    time, the car is placed at the [x] and [z] of the first position, at
    height 0.01, and its colour is left as it was; with non-decreasing sample
    times, for a query after the last sample time it is placed at the [x]
    and [z] of the last position, at height 0.01, colour left as it was: no
    extrapolation.  A negative query is such a query before the start when the
    series starts at 0 or later.  A query equal to the last sample time that
    is above the time before it is handled by the interpolation between the
    last two samples. *)
Theorem sample_clamps :
  forall (carData : CarTelemetry float) (carRef : Mesh float) (t : float),
    (forall t0 firstPos,
       nth_error (times carData) 0 = Some t0 ->
       nth_error (positions_normalized carData) 0 = Some firstPos ->
       ((t <=? t0) = true \/ ((t <? lit 0) = true /\ (lit 0 <=? t0) = true)) ->
       sample t carData carRef =
         Normal (mkMesh (mkPosition (px firstPos) (lit 0.01) (pz firstPos))
                        (color carRef))) /\
    (forall tl lastPos,
       nondecreasing (times carData) = true ->
       lastItem (times carData) = Some tl ->
       item (positions_normalized carData)
            (Z.of_nat (List.length (times carData)) - 1) = Some lastPos ->
       (tl <? t) = true ->
       sample t carData carRef =
         Normal (mkMesh (mkPosition (px lastPos) (lit 0.01) (pz lastPos))
                        (color carRef))) /\
    (forall tp tl,
       nondecreasing (times carData) = true ->
       (2 <= List.length (times carData))%nat ->
       nth_error (times carData) (List.length (times carData) - 2) = Some tp ->
       nth_error (times carData) (List.length (times carData) - 1) = Some tl ->
       (tp <? t) = true -> (t === tl) = true ->
       sample t carData carRef =
         interpolate t carData (Z.of_nat (List.length (times carData)) - 1) carRef).
Proof.
  intros carData carRef t. split; [|split].
  - intros t0 firstPos Ht0 Hp0 Hle.
    assert (Hle' : (t <=? t0) = true).
    { destruct Hle as [H|[H1 H2]]; auto.
      apply ltb_leb. now apply ltb_leb_trans with (lit 0). }
    unfold sample, findIndex.
    rewrite (findIndex_from_first (fun x => x >=? t) (times carData) 0 0 t0) by
      (auto; intros j b Hj; lia).
    change (0 + Z.of_nat 0)%Z with 0%Z. cbv iota beta zeta.
    change (0 =? -1)%Z with false. change (0 =? 0)%Z with true. cbv iota.
    change (item (times carData) 0) with (nth_error (times carData) 0).
    change (item (positions_normalized carData) 0)
      with (nth_error (positions_normalized carData) 0).
    rewrite Ht0, Hp0, Hle'. reflexivity.
  - intros tl lastPos Hnd Hl Hp Hlt. unfold sample.
    rewrite (locate_past_end (times carData) t tl) by auto.
    simpl. rewrite Hp. reflexivity.
  - intros tp tl Hnd Hlen Htp Htl Hlt Heq. unfold sample.
    set (n := List.length (times carData)) in *.
    assert (Hidx : findIndex (fun x => x >=? t) (times carData) = Z.of_nat (n - 1)).
    { unfold findIndex.
      rewrite (findIndex_from_first (fun x => x >=? t) (times carData) 0 (n - 1) tl);
        auto.
      - now apply eqb_leb.
      - intros j b Hj Hb. apply ltb_not_geb.
        destruct (Nat.eq_dec j (n - 2)) as [->|Hne].
        + rewrite Htp in Hb. now injection Hb as <-.
        + apply leb_ltb_trans with tp; auto.
          apply (nondecreasing_nth (times carData) j (n - 2)); auto. lia. }
    rewrite Hidx.
    destruct (Z.eqb_spec (Z.of_nat (n - 1)) (-1)); [lia|].
    destruct (Z.eqb_spec (Z.of_nat (n - 1)) 0); [lia|].
    f_equal. lia.
Qed.

Lemma sample_clamps_witness :
  sample (lit (-1)) Scenario.braking Scenario.mesh0 =
    Normal (mkMesh (mkPosition (lit 0) (lit 0.01) (lit 0)) "#FFFFFF") /\
  sample (lit 3) Scenario.braking Scenario.mesh0 =
    Normal (mkMesh (mkPosition (lit 10) (lit 0.01) (lit 0)) "#FFFFFF") /\
  sample (lit 1) Scenario.braking Scenario.mesh0 =
    interpolate (lit 1) Scenario.braking 1 Scenario.mesh0.
Proof.
  destruct (sample_clamps Scenario.braking Scenario.mesh0 (lit (-1))) as [H1 _].
  destruct (sample_clamps Scenario.braking Scenario.mesh0 (lit 3)) as [_ [H2 _]].
  destruct (sample_clamps Scenario.braking Scenario.mesh0 (lit 1)) as [_ [_ H3]].
  split; [|split].
  - apply (H1 (lit 0) (Scenario.pos 0 0 0)); [reflexivity | reflexivity |].
    right. split; reflexivity.
  - apply (H2 (lit 1) (Scenario.pos 10 0 0)); reflexivity.
  - apply (H3 (lit 0) (lit 1)); reflexivity.
Defined.

(** C2 as stated fails.  Before the start and after the end the car keeps
    the colour it had: the first sample of [Scenario.braking] has the brake
    on, which is rendered "#CA1551", and its last sample is at full throttle,
    rendered "#03CEA4", and a white car stays white at both ends; the height
    is 0.01 and not the sample's 0.  With the two equal time stamps of
    [Scenario.stalled] the query at the last sample time returns the first
    position, not the last one. *)
Lemma sample_clamp_keeps_colour :
  sample (lit (-1)) Scenario.braking Scenario.mesh0 =
    Normal (mkMesh (mkPosition (lit 0) (lit 0.01) (lit 0)) "#FFFFFF") /\
  carColor (lit 0) (brake_truthy (Some (BrakeBool true))) = "#CA1551"%string /\
  sample (lit 3) Scenario.braking Scenario.mesh0 =
    Normal (mkMesh (mkPosition (lit 10) (lit 0.01) (lit 0)) "#FFFFFF") /\
  carColor (lit 100) (brake_truthy (Some (BrakeBool (num := float) false)))
    = "#03CEA4"%string /\
  (lit 0.01 === lit 0) = false /\
  sample (lit 1) Scenario.stalled Scenario.mesh0 =
    Normal (mkMesh (mkPosition (lit 0) (lit 0.01) (lit 0)) "#FFFFFF") /\
  (lit 0 === lit 10) = false.
Proof. repeat split; vm_compute; reflexivity. Qed.






(** C4: the code at an entity without samples.  While playing, the pass
    raises a [TypeError] (it reads [lastPos[0]] on [undefined]) instead of
    leaving the entity alone, at every query time, and the exception ends the
    loop over the fleet, whatever cars follow. *)
Theorem sample_empty_series_raises :
  forall (t lastTime : float) (carRef : Mesh float)
         (rest : list (CarTelemetry float * option (Mesh float))),
    sample t Scenario.empty carRef = TypeError /\
    updateCar true t Scenario.empty carRef = TypeError /\
    forEachCar true t ((Scenario.empty, Some carRef) :: rest) = TypeError /\
    fst (useFrame true t lastTime ((Scenario.empty, Some carRef) :: rest)) = TypeError.
Proof.
  intros t lastTime carRef rest. repeat split; try reflexivity.
  unfold useFrame. destruct ((t === lit 0) && (lastTime >? lit 0)); reflexivity.
Qed.

End SamplingProperties.

(* ================================================================== *)
(** * The strip mesh                                                   *)
(* ================================================================== *)

Section MeshProperties.
Context {num : Type} {N : JSNumber num}.
Local Open Scope js_scope.

Lemma pushFaces_length (count : nat) : forall i : nat,
  List.length (pushFaces i count) = (6 * count)%nat.
Proof.
  induction count as [|c IH]; intros i; simpl; auto.
  rewrite IH. lia.
Qed.

Lemma pushVertices_length (vi vo : list (Vector3 num)) : forall (i : nat) (vs : list num),
  pushVertices vi vo i = Normal vs -> List.length vs = (6 * List.length vi)%nat.
Proof.
  induction vi as [|a rest IH]; intros i vs H; simpl in H.
  - injection H as <-. reflexivity.
  - destruct (nth_error vo i); [|discriminate].
    destruct (pushVertices rest vo (S i)) as [vs'|] eqn:E; [|discriminate].
    injection H as <-. simpl. rewrite (IH _ _ E). lia.
Qed.

Lemma pushVertices_ok (vi vo : list (Vector3 num)) : forall i : nat,
  (i + List.length vi <= List.length vo)%nat ->
  exists vs, pushVertices vi vo i = Normal vs.
Proof.
  induction vi as [|a rest IH]; intros i Hlen; simpl in *.
  - eexists; reflexivity.
  - destruct (nth_error vo i) as [o|] eqn:E.
    + destruct (IH (S i) ltac:(lia)) as [vs ->]. eexists; reflexivity.
    + apply nth_error_None in E. lia.
Qed.

(** What the component renders when it renders a surface. *)
Lemma Track_asphalt (trackPath : list (list num)) (view : TrackView num)
    (geo : BufferGeometry num) :
  Track trackPath = Normal (Some view) -> asphalt view = Some geo ->
  asphaltGeometry (filter validVector (innerPoints (boundaries trackPath)))
                  (filter validVector (outerPoints (boundaries trackPath)))
    = Normal (Some geo).
Proof.
  unfold Track. intros H Hgeo.
  destruct (List.length (centerPoints (boundaries trackPath)) =? 0)%nat;
    [discriminate|].
  destruct (List.length (filter validVector (centerPoints (boundaries trackPath))) <? 2)%nat;
    [discriminate|].
  destruct (asphaltGeometry _ _) as [g|]; [|discriminate].
  injection H as <-. simpl in Hgeo. now rewrite Hgeo.
Qed.

End MeshProperties.

Section ClosingProperties.
Local Open Scope js_scope.

(** C7 (as the code has it). The index buffer holds the two triangles of
    each of the [n - 1] quads of the strip, and after them two closing
    triangles, [(2(n-1), 2(n-1)+1, 0)] and [(2(n-1)+1, 1, 0)], exactly when
    the first and the last of the [n] valid inner boundary points are less
    than 0.1 apart; otherwise it holds the strip alone. *)
Theorem closing_triangles_by_inner_points :
  forall (num : Type) (N : JSNumber num) (trackPath : list (list num))
         (view : TrackView num) (geo : BufferGeometry num),
    Track trackPath = Normal (Some view) -> asphalt view = Some geo ->
    let inner := filter validVector (innerPoints (boundaries trackPath)) in
    let n := List.length inner in
    let close := distanceTo (nth 0 inner origin) (nth (n - 1) inner origin)
                   <? lit 0.1 in
    let base := ((n - 1) * 2)%nat in
    List.length (pushFaces 0 (n - 1)) = (3 * (2 * (n - 1)))%nat /\
    (close = true ->
       indices geo = pushFaces 0 (n - 1) ++ [base; base + 1; 0; base + 1; 1; 0]%nat) /\
    (close = false -> indices geo = pushFaces 0 (n - 1)).
Proof.
  intros num N trackPath view geo HT Hgeo inner n close base.
  pose proof (Track_asphalt trackPath view geo HT Hgeo) as HA.
  fold inner in HA. unfold asphaltGeometry in HA.
  destruct ((List.length inner <? 2)%nat || _); [discriminate|].
  destruct (pushVertices inner _ 0) as [vs|]; [|discriminate].
  injection HA as <-. simpl. fold n.
  split; [rewrite pushFaces_length; lia|].
  unfold closingFaces. fold n. fold close. fold base.
  split; intros ->; [reflexivity | apply app_nil_r].
Qed.

Lemma rendered_asphalt {num : Type} (r : completion (option (TrackView num)))
    (l : list nat) :
  renderedIndices r = Some l ->
  exists view geo, r = Normal (Some view) /\ asphalt view = Some geo.
Proof.
  destruct r as [[view|]|]; simpl; try discriminate.
  destruct (asphalt view) as [geo|] eqn:E; simpl; try discriminate.
  intros _. now exists view, geo.
Qed.

Lemma hairpin_indices :
  renderedIndices (Track Scenario.hairpin) = Some (pushFaces 0 3 ++ [6; 7; 0; 7; 1; 0]%nat).
Proof. vm_compute. reflexivity. Qed.

Lemma closing_triangles_by_inner_points_witness :
  exists geo : BufferGeometry float,
    indices geo = pushFaces 0 3 ++ [6; 7; 0; 7; 1; 0]%nat.
Proof.
  destruct (rendered_asphalt _ _ hairpin_indices) as (view & geo & HT & Hgeo).
  exists geo.
  apply (proj1 (proj2 (closing_triangles_by_inner_points float _
                         Scenario.hairpin view geo HT Hgeo))).
  vm_compute. reflexivity.
Defined.

(** C7 as stated fails in both directions.  The two centerline points of
    [Scenario.short] are 0.09 apart, below 0.1, and the mesh has the two
    triangles of its single quad and no closing triangle; the ends of
    [Scenario.hairpin] are 0.15 apart, above 0.1, and its mesh ends with the
    two closing triangles. *)
Lemma closing_ignores_centerline :
  centerPoints (boundaries Scenario.short) =
    [Scenario.vec 0 0 0; Scenario.vec 0.09 0 0] /\
  (distanceTo (Scenario.vec 0 0 0) (Scenario.vec 0.09 0 0) <? lit 0.1) = true /\
  renderedIndices (Track Scenario.short) = Some [0; 1; 2; 1; 3; 2]%nat /\
  centerPoints (boundaries Scenario.hairpin) =
    [Scenario.vec 0 0 0; Scenario.vec 0.99 0 0.14; Scenario.vec (-0.84) 0 0.14;
     Scenario.vec 0.15 0 0] /\
  (distanceTo (Scenario.vec 0 0 0) (Scenario.vec 0.15 0 0) <? lit 0.1) = false /\
  renderedIndices (Track Scenario.hairpin) =
    Some [0; 1; 2; 1; 3; 2; 2; 3; 4; 3; 5; 4; 4; 5; 6; 5; 7; 6; 6; 7; 0; 7; 1; 0]%nat.
Proof. repeat split; vm_compute; reflexivity. Qed.

End ClosingProperties.

(* ================================================================== *)
(** * The boundary loop                                                *)
(* ================================================================== *)

Section BoundaryLengths.
Context {num : Type} {N : JSNumber num}.

Lemma boundaryLoop_length (points : list (Vector3 num)) (idxs : list nat) :
  forall inner outer : list (Vector3 num),
    List.length (fst (boundaryLoop points idxs inner outer))
      = (List.length inner + List.length idxs)%nat /\
    List.length (snd (boundaryLoop points idxs inner outer))
      = (List.length outer + List.length idxs)%nat.
Proof.
  induction idxs as [|i rest IH]; intros inner outer; simpl.
  - split; lia.
  - destruct (boundaryPair points inner outer i) as [ip op].
    destruct (IH (inner ++ [ip]) (outer ++ [op])) as [H1 H2].
    rewrite H1, H2, !length_app. simpl. split; lia.
Qed.

(** One inner and one outer point per centerline point. *)
Lemma boundaries_lengths (trackPath : list (list num)) :
  List.length (innerPoints (boundaries trackPath))
    = List.length (centerPoints (boundaries trackPath)) /\
  List.length (outerPoints (boundaries trackPath))
    = List.length (centerPoints (boundaries trackPath)).
Proof.
  unfold boundaries.
  destruct (List.length trackPath <? 2)%nat; [split; reflexivity|].
  destruct (List.length (validPoints trackPath) <? 2)%nat; [split; reflexivity|].
  pose proof (boundaryLoop_length (validPoints trackPath)
                (seq 0 (List.length (validPoints trackPath))) [] []) as [H1 H2].
  destruct (boundaryLoop _ _ [] []) as [inner outer]. simpl in *.
  rewrite length_seq in H1, H2. split; assumption.
Qed.

End BoundaryLengths.

Section RepeatedPoints.
Local Open Scope js_scope.

(** The builder on two paths with repeated points, in binary64: every
    boundary point passes the validity test of the component, and the
    vertex buffer holds six numbers per centerline point. *)
Lemma repeated_points_runs :
  forallb validVector (innerPoints (boundaries Scenario.repeated)) = true /\
  forallb validVector (outerPoints (boundaries Scenario.repeated)) = true /\
  forallb validVector (innerPoints (boundaries Scenario.repeatedStart)) = true /\
  forallb validVector (outerPoints (boundaries Scenario.repeatedStart)) = true /\
  option_map (@List.length float) (renderedVertices (Track Scenario.repeated))
    = Some (3 * (2 * 5))%nat /\
  option_map (@List.length float) (renderedVertices (Track Scenario.repeatedStart))
    = Some (3 * (2 * 4))%nat.
Proof. repeat split; vm_compute; reflexivity. Qed.

End RepeatedPoints.

(* ================================================================== *)
(** * Straight paths                                                   *)
(* ================================================================== *)

Section StraightExample.
Local Open Scope js_scope.

Lemma straight_boundaries :
  boundaries Scenario.straight =
    mkBoundaries
      [Scenario.vec 0 0 0; Scenario.vec 1 0 0; Scenario.vec 2 0 0]
      [Scenario.vec 0 0 0.04; Scenario.vec 1 0 (-0.04); Scenario.vec 2 0 (-0.04)]
      [Scenario.vec 0 0 (-0.04); Scenario.vec 1 0 0.04; Scenario.vec 2 0 0.04].
Proof. vm_compute. reflexivity. Qed.







End StraightExample.

(* ================================================================== *)
(** * More on the clock                                                *)
(* ================================================================== *)

Section ClockRuns.
Context {num : Type} {N : JSNumber num}.
Local Open Scope js_scope.

(** The frame driver leaves a paused state alone, frame after frame. *)
Lemma paused_frames (frames : list num) (s : RaceControls num) :
  isPlaying s = false ->
  fold_left (fun s delta => RaceTimer delta s) frames s = s.
Proof.
  intros Hp. induction frames as [|d frames IH]; simpl; [reflexivity|].
  assert (H : RaceTimer d s = s) by (unfold RaceTimer; now rewrite Hp).
  now rewrite H.
Qed.

(** X1. A paused clock stands still: whatever frame deltas the frame
    driver or [advanceTime] itself is given, in whatever number, a state
    that is not playing is left as it is. *)
Theorem paused_clock_stands_still :
  forall (frames : list num) (s : RaceControls num),
    isPlaying s = false ->
    fold_left (fun s delta => RaceTimer delta s) frames s = s /\
    fold_left (fun s delta => advanceTime delta s) frames s = s.
Proof.
  intros frames s Hp. split; [now apply paused_frames|].
  induction frames as [|d frames IH]; simpl; [reflexivity|].
  assert (H : advanceTime d s = s) by (unfold advanceTime; now rewrite Hp).
  now rewrite H.
Qed.

(** X2. After [reset] the elapsed time is 0 and stays 0 through any
    number of frames, the clock is paused, and the speed is the one it had
    before. *)
Theorem reset_holds_time_at_zero :
  forall (frames : list num) (s : RaceControls num),
    let s' := fold_left (fun s delta => RaceTimer delta s) frames (reset s) in
    getCurrentTime s' = lit 0 /\ currentTimeState s' = lit 0 /\
    isPlaying s' = false /\ playbackSpeed s' = playbackSpeed s.
Proof.
  intros frames s s'. subst s'.
  rewrite (paused_frames frames (reset s) eq_refl).
  repeat split.
Qed.

(** What a run of clicks without [reset] does to the time and the play
    flag. *)
Lemma fold_buttons_no_reset (bs : list Button) : forall s : RaceControls num,
  ~ In resetButton bs ->
  currentTimeRef (fold_left (fun s b => buttonAction b s) bs s) = currentTimeRef s /\
  currentTimeState (fold_left (fun s b => buttonAction b s) bs s) = currentTimeState s /\
  isPlaying (fold_left (fun s b => buttonAction b s) bs s)
    = xorb (isPlaying s) (Nat.odd (count_occ Button_eq_dec bs play)).
Proof.
  induction bs as [|b bs IH]; intros s Hno; simpl.
  - repeat split. now rewrite xorb_false_r.
  - assert (Hb : b <> resetButton) by (intros ->; apply Hno; left; reflexivity).
    assert (Hbs : ~ In resetButton bs) by (intros H; apply Hno; right; exact H).
    destruct (IH (buttonAction b s) Hbs) as (H1 & H2 & H3).
    rewrite H1, H2, H3.
    destruct b; simpl; try congruence.
    + destruct (Button_eq_dec play play) as [_|C]; [|congruence].
      repeat split. rewrite Nat.odd_succ, <- Nat.negb_odd.
      destruct (isPlaying s), (Nat.odd (count_occ Button_eq_dec bs play)); reflexivity.
    + destruct (Button_eq_dec speedUpButton play) as [C|_]; [discriminate|].
      repeat split.
    + destruct (Button_eq_dec speedDownButton play) as [C|_]; [discriminate|].
      repeat split.
Qed.

(** X3. Clicks on the panel that do not include [reset] leave the elapsed
    time where it was, and the clock plays after them exactly when it played
    before and [play] was clicked an even number of times, or it did not and
    [play] was clicked an odd number of times. *)
Theorem clicks_without_reset :
  forall (bs : list Button) (s : RaceControls num),
    ~ In resetButton bs ->
    let s' := fold_left (fun s b => buttonAction b s) bs s in
    getCurrentTime s' = getCurrentTime s /\
    isPlaying s' = xorb (isPlaying s) (Nat.odd (count_occ Button_eq_dec bs play)).
Proof.
  intros bs s Hno s'. subst s'.
  destruct (fold_buttons_no_reset bs s Hno) as (H1 & _ & H3).
  split; assumption.
Qed.

End ClockRuns.

Lemma paused_clock_stands_still_witness :
  fold_left (fun s delta => RaceTimer delta s) [lit 0.016; lit 0.5] Scenario.paused
    = Scenario.paused /\
  fold_left (fun s delta => advanceTime delta s) [lit 0.016; lit 0.5] Scenario.paused
    = Scenario.paused.
Proof.
  exact (paused_clock_stands_still [lit 0.016; lit 0.5] Scenario.paused eq_refl).
Defined.

Lemma clicks_without_reset_witness :
  getCurrentTime (fold_left (fun s b => buttonAction b s)
                    [play; speedUpButton; play; play] Scenario.paused)
    = getCurrentTime Scenario.paused /\
  isPlaying (fold_left (fun s b => buttonAction b s)
               [play; speedUpButton; play; play] Scenario.paused)
    = xorb (isPlaying Scenario.paused)
           (Nat.odd (count_occ Button_eq_dec [play; speedUpButton; play; play] play)).
Proof.
  apply (clicks_without_reset [play; speedUpButton; play; play] Scenario.paused).
  intros [H|[H|[H|[H|[]]]]]; discriminate.
Defined.

Section SpeedButtons.
Local Open Scope js_scope.

(** X4. On the speeds the buttons reach, the two speed buttons undo each
    other inside the range and saturate at its ends: below 5, [speedDown]
    after [speedUp] gives the state back; above 0.5, [speedUp] after
    [speedDown] gives it back; at 5 [speedUp] changes nothing and at 0.5
    [speedDown] changes nothing. *)
Theorem speed_buttons_round_trip :
  forall s : RaceControls float,
    In (playbackSpeed s) Scenario.speedGrid ->
    ((playbackSpeed s <? lit 5) = true -> speedDown (speedUp s) = s) /\
    ((lit 0.5 <? playbackSpeed s) = true -> speedUp (speedDown s) = s) /\
    ((playbackSpeed s === lit 5) = true -> speedUp s = s) /\
    ((playbackSpeed s === lit 0.5) = true -> speedDown s = s).
Proof.
  intros [p v ts tr] H. simpl in H.
  unfold speedUp, speedDown, setPlaybackSpeed. simpl.
  repeat (destruct H as [<-|H];
          [repeat split; intros E; vm_compute in E; try discriminate E;
           vm_compute; reflexivity|]).
  contradiction.
Qed.

Lemma speed_buttons_round_trip_witness :
  speedDown (speedUp Scenario.playing) = Scenario.playing /\
  speedUp (speedDown Scenario.playing) = Scenario.playing.
Proof.
  pose proof (speed_buttons_round_trip Scenario.playing) as H.
  destruct H as (H1 & H2 & _).
  - simpl. tauto.
  - split; [apply H1 | apply H2]; reflexivity.
Defined.

End SpeedButtons.

(* ================================================================== *)
(** * More on the sampling pass                                        *)
(* ================================================================== *)

Section SamplingRuns.
Context {num : Type} {N : JSNumber num}.
Local Open Scope js_scope.

Lemma interpolate_total (t : num) (carData : CarTelemetry num) (i : Z)
    (carRef : Mesh num) :
  exists m, interpolate t carData i carRef = Normal m.
Proof.
  unfold interpolate.
  destruct (item (times carData) (i - 1)); [|eexists; reflexivity].
  destruct (item (times carData) i); [|eexists; reflexivity].
  destruct (item (positions_normalized carData) (i - 1)); [|eexists; reflexivity].
  destruct (item (positions_normalized carData) i); eexists; reflexivity.
Qed.

(** X6. The sampling pass raises nothing for a car that has at least one
    sample time and a position for each of them, at any query time; and a
    frame raises nothing over a fleet of such cars, mounted or not, playing
    or not. *)
Theorem sample_total :
  (forall (t : num) (carData : CarTelemetry num) (carRef : Mesh num),
     (1 <= List.length (times carData))%nat ->
     (List.length (times carData) <= List.length (positions_normalized carData))%nat ->
     exists m, sample t carData carRef = Normal m) /\
  (forall (playing : bool) (t : num) (fleet : list (CarTelemetry num * option (Mesh num))),
     Forall (fun entry =>
               (1 <= List.length (times (fst entry)))%nat /\
               (List.length (times (fst entry))
                  <= List.length (positions_normalized (fst entry)))%nat) fleet ->
     exists ms, forEachCar playing t fleet = Normal ms).
Proof.
  assert (S : forall (t : num) (carData : CarTelemetry num) (carRef : Mesh num),
     (1 <= List.length (times carData))%nat ->
     (List.length (times carData) <= List.length (positions_normalized carData))%nat ->
     exists m, sample t carData carRef = Normal m).
  { intros t carData carRef H1 H2. unfold sample.
    destruct (_ =? -1)%Z.
    - replace (Z.of_nat (List.length (times carData)) - 1)%Z
        with (Z.of_nat (List.length (times carData) - 1)) by lia.
      rewrite item_of_nat.
      destruct (nth_error (positions_normalized carData) _) eqn:E;
        [eexists; reflexivity|].
      apply nth_error_None in E. lia.
    - destruct (_ =? 0)%Z; [|apply interpolate_total].
      destruct (match item (times carData) 0 with Some _ => _ | None => _ end);
        [|apply interpolate_total].
      change (item (positions_normalized carData) 0)
        with (nth_error (positions_normalized carData) 0).
      destruct (nth_error (positions_normalized carData) 0) eqn:E;
        [eexists; reflexivity|].
      apply nth_error_None in E. lia. }
  split; [exact S|].
  intros playing t fleet H. induction H as [|[carData [carRef|]] fleet [H1 H2] _ IH]; simpl.
  - eexists; reflexivity.
  - destruct IH as [ms ->].
    assert (exists m, updateCar playing t carData carRef = Normal m) as [m ->].
    { unfold updateCar. destruct (negb playing && _); [eexists; reflexivity|].
      destruct (negb playing); [eexists; reflexivity|]. now apply S. }
    eexists; reflexivity.
  - destruct IH as [ms ->]. eexists; reflexivity.
Qed.

(** X7. Whatever the pass does to a car it either leaves its mesh as it
    was or puts it at height 0.01: at every time, playing or not. *)
Theorem car_height_fixed :
  forall (playing : bool) (t : num) (carData : CarTelemetry num)
         (carRef m : Mesh num),
    updateCar playing t carData carRef = Normal m ->
    m = carRef \/ py (position m) = lit 0.01.
Proof.
  intros playing t carData carRef m. unfold updateCar.
  destruct (negb playing && _); [intros H; injection H as <-; right; reflexivity|].
  destruct (negb playing); [intros H; injection H as <-; left; reflexivity|].
  assert (I : forall i, interpolate t carData i carRef = Normal m ->
                        m = carRef \/ py (position m) = lit 0.01).
  { intros i. unfold interpolate.
    destruct (item (times carData) (i - 1)); [|intros H; injection H as <-; now left].
    destruct (item (times carData) i); [|intros H; injection H as <-; now left].
    destruct (item (positions_normalized carData) (i - 1));
      [|intros H; injection H as <-; now left].
    destruct (item (positions_normalized carData) i);
      intros H; injection H as <-; [right|left]; reflexivity. }
  unfold sample.
  destruct (_ =? -1)%Z.
  - destruct (item _ _); [|discriminate]. intros H; injection H as <-; now right.
  - destruct (_ =? 0)%Z; [|apply I].
    destruct (match item (times carData) 0 with Some _ => _ | None => _ end); [|apply I].
    destruct (item _ _); [|discriminate]. intros H; injection H as <-; now right.
Qed.

(** X8. Sampling is stable: a second pass at the same time over the mesh
    the first pass produced changes nothing. *)
Theorem sample_idempotent :
  forall (t : num) (carData : CarTelemetry num) (carRef m : Mesh num),
    sample t carData carRef = Normal m -> sample t carData m = Normal m.
Proof.
  intros t carData carRef m.
  assert (I : forall i, interpolate t carData i carRef = Normal m ->
                        interpolate t carData i m = Normal m).
  { intros i. unfold interpolate.
    destruct (item (times carData) (i - 1)); [|auto].
    destruct (item (times carData) i); [|auto].
    destruct (item (positions_normalized carData) (i - 1)); [|auto].
    destruct (item (positions_normalized carData) i); [|auto].
    intros H; injection H as <-. reflexivity. }
  unfold sample.
  destruct (_ =? -1)%Z.
  - destruct (item _ _); [|discriminate]. intros H; injection H as <-. reflexivity.
  - destruct (_ =? 0)%Z; [|apply I].
    destruct (match item (times carData) 0 with Some _ => _ | None => _ end); [|apply I].
    destruct (item _ _); [|discriminate]. intros H; injection H as <-. reflexivity.
Qed.

(** X10. A paused frame raises nothing, whatever the data, cars without
    samples included; away from time 0 it leaves every mesh as it was. *)
Theorem paused_frame_safe :
  forall (t : num) (fleet : list (CarTelemetry num * option (Mesh num))),
    exists ms,
      forEachCar false t fleet = Normal ms /\
      List.length ms = List.length fleet /\
      ((t === lit 0) = false -> ms = map snd fleet).
Proof.
  intros t fleet. induction fleet as [|[carData [carRef|]] fleet IH]; simpl.
  - exists []. repeat split.
  - destruct IH as (ms & -> & Hlen & Hsame).
    unfold updateCar. simpl. destruct (t === lit 0) eqn:E.
    + eexists. split; [reflexivity|]. simpl. split; [now rewrite Hlen | discriminate].
    + eexists. split; [reflexivity|]. simpl. split; [now rewrite Hlen|].
      intros _. now rewrite Hsame.
  - destruct IH as (ms & -> & Hlen & Hsame).
    eexists. split; [reflexivity|]. simpl. split; [now rewrite Hlen|].
    intros E. now rewrite Hsame.
Qed.

End SamplingRuns.

Lemma sample_total_witness :
  exists m, sample (lit 0.5) (Scenario.series [] [] []) Scenario.mesh0 = Normal m.
Proof.
  apply (proj1 sample_total (lit 0.5) (Scenario.series [] [] []) Scenario.mesh0).
  - simpl. repeat constructor.
  - simpl. repeat constructor.
Defined.

Lemma car_height_fixed_witness :
  mkMesh (Scenario.pos 0 0.01 0) "#FFFFFF" = Scenario.mesh0 \/
  py (position (mkMesh (Scenario.pos 0 0.01 0) "#FFFFFF")) = lit 0.01.
Proof.
  apply (car_height_fixed true (lit (-1)) Scenario.braking Scenario.mesh0).
  reflexivity.
Defined.

Lemma sample_idempotent_witness :
  sample (lit (-1)) Scenario.braking (mkMesh (Scenario.pos 0 0.01 0) "#FFFFFF")
    = Normal (mkMesh (Scenario.pos 0 0.01 0) "#FFFFFF").
Proof.
  apply (sample_idempotent (lit (-1)) Scenario.braking Scenario.mesh0).
  reflexivity.
Defined.

(* ================================================================== *)
(** * The interpolation fraction                                       *)
(* ================================================================== *)

Section FractionBounds.
Local Open Scope js_scope.

Lemma SFltb_asym a b : SFltb a b = true -> SFltb b a = false.
Proof. unfold SFltb. sf_solve. Qed.

Lemma SFltb_irrefl a : SFltb a a = false.
Proof.
  unfold SFltb. destruct a as [[]|[]| |[] m e]; simpl; auto;
    rewrite Z.compare_refl, Pos.compare_cont_refl; reflexivity.
Qed.

Lemma ltb_asym (a b : float) : (a <? b) = true -> (b <? a) = false.
Proof. cbn. rewrite !FloatAxioms.ltb_spec. apply SFltb_asym. Qed.

Lemma ltb_irrefl (a : float) : (a <? a) = false.
Proof. cbn. rewrite FloatAxioms.ltb_spec. apply SFltb_irrefl. Qed.

(** [Math.max(0, x)] is never below 0 (it is [NaN] when [x] is). *)
Lemma max_0_not_negative (x : float) : (Math_max (lit 0) x <? lit 0) = false.
Proof.
  change (PrimFloat.ltb (Float64.max 0 x) 0 = false).
  unfold Float64.max.
  destruct (PrimFloat.is_nan 0 || PrimFloat.is_nan x); [reflexivity|].
  destruct (PrimFloat.ltb 0 x) eqn:E1; [now apply ltb_asym|].
  destruct (PrimFloat.ltb x 0) eqn:E2; reflexivity.
Qed.

(** [Math.min(1, x)] is never above 1. *)
Lemma min_1_not_above (x : float) : (lit 1 <? Math_min (lit 1) x) = false.
Proof.
  change (PrimFloat.ltb 1 (Float64.min 1 x) = false).
  unfold Float64.min.
  destruct (PrimFloat.is_nan 1 || PrimFloat.is_nan x); [reflexivity|].
  destruct (PrimFloat.ltb 1 x) eqn:E1; [reflexivity|].
  destruct (PrimFloat.ltb x 1) eqn:E2; exact E1.
Qed.

(** X11. In binary64 arithmetic the interpolation fraction is never below
    0 and never above 1, whatever the three times are: equal, out of order,
    infinite or [NaN] (in which case the fraction can be [NaN], which
    compares false both ways). *)
Theorem fraction_within_unit :
  forall currentTime prevTime nextTime : float,
    (fraction currentTime prevTime nextTime <? lit 0) = false /\
    (fraction currentTime prevTime nextTime >? lit 1) = false.
Proof.
  intros c p n. unfold fraction.
  set (x := (c - p) / (n - p)). clearbody x.
  split; [apply max_0_not_negative|].
  pose proof (min_1_not_above x) as Hm.
  set (m := Math_min (lit 1) x) in *. clearbody m.
  change (PrimFloat.ltb 1 m = false) in Hm.
  change (PrimFloat.ltb 1 (Float64.max 0 m) = false).
  unfold Float64.max.
  destruct (PrimFloat.is_nan 0 || PrimFloat.is_nan m); [reflexivity|].
  destruct (PrimFloat.ltb 0 m) eqn:E1; [exact Hm|].
  destruct (PrimFloat.ltb m 0) eqn:E2; reflexivity.
Qed.

End FractionBounds.


(* ================================================================== *)
(** * More on the track                                                *)
(* ================================================================== *)

Section CenterLine.
Context {num : Type} {N : JSNumber num}.
Local Open Scope js_scope.

Lemma validPoints_length (trackPath : list (list num)) :
  (List.length (validPoints trackPath) <= List.length trackPath)%nat.
Proof.
  induction trackPath as [|point rest IH]; simpl; [lia|].
  destruct (centerPoint point); simpl; lia.
Qed.

(** X13. The centerline keeps no more points than the path has entries,
    and every point it keeps is at height 0 with an [x] and a [z] that are
    neither [NaN] nor infinite, whatever the entries hold. *)
Theorem centerline_flat_and_finite :
  forall trackPath : list (list num),
    (List.length (validPoints trackPath) <= List.length trackPath)%nat /\
    Forall (fun p => vy p = lit 0 /\
                     isNaN (vx p) = false /\ isNaN (vz p) = false /\
                     isFinite (vx p) = true /\ isFinite (vz p) = true)
           (validPoints trackPath).
Proof.
  induction trackPath as [|point rest [IHlen IH]]; simpl.
  - split; [lia | constructor].
  - unfold centerPoint.
    destruct (3 <=? List.length point)%nat; [|split; [lia | exact IH]].
    destruct (nth_error point 0) as [x|]; [|split; [lia | exact IH]].
    destruct (nth_error point 2) as [z|]; [|split; [lia | exact IH]].
    destruct (isNaN x) eqn:Ex; simpl; [split; [lia | exact IH]|].
    destruct (isNaN z) eqn:Ez; simpl; [split; [lia | exact IH]|].
    destruct (isFinite x) eqn:Fx; simpl; [|split; [lia | exact IH]].
    destruct (isFinite z) eqn:Fz; simpl; [|split; [lia | exact IH]].
    split; [lia|]. constructor; [|exact IH]. simpl. auto.
Qed.

Lemma boundaries_center (trackPath : list (list num)) :
  (2 <= List.length (validPoints trackPath))%nat ->
  centerPoints (boundaries trackPath) = validPoints trackPath.
Proof.
  intros H. unfold boundaries.
  pose proof (validPoints_length trackPath) as Hlen.
  destruct (Nat.ltb_spec (List.length trackPath) 2); [lia|].
  destruct (Nat.ltb_spec (List.length (validPoints trackPath)) 2); [lia|].
  now destruct (boundaryLoop _ _ [] []).
Qed.

Lemma filter_length {A : Type} (f : A -> bool) (l : list A) :
  (List.length (filter f l) <= List.length l)%nat.
Proof.
  induction l as [|x l IH]; simpl; [lia|]. destruct (f x); simpl; lia.
Qed.

Lemma boundaries_too_few (trackPath : list (list num)) :
  (List.length (validPoints trackPath) < 2)%nat ->
  boundaries trackPath = mkBoundaries [] [] [].
Proof.
  intros H. unfold boundaries.
  destruct (List.length trackPath <? 2)%nat; [reflexivity|].
  destruct (Nat.ltb_spec (List.length (validPoints trackPath)) 2); [reflexivity | lia].
Qed.

(** The component calls its second hook exactly when two centerline
    points at least pass its validity filter. *)
Lemma hooksOf_usable (trackPath : list (list num)) :
  hooksOf trackPath =
    if (2 <=? List.length (filter validVector (validPoints trackPath)))%nat
    then 2%nat else 1%nat.
Proof.
  pose proof (filter_length validVector (validPoints trackPath)) as Hf.
  unfold hooksOf.
  destruct (Nat.ltb_spec (List.length (validPoints trackPath)) 2) as [Hlt|Hge].
  - rewrite (boundaries_too_few trackPath Hlt).
    destruct (Nat.leb_spec 2 (List.length (filter validVector (validPoints trackPath))));
      [lia | reflexivity].
  - rewrite (boundaries_center trackPath Hge).
    destruct (Nat.eqb_spec (List.length (validPoints trackPath)) 0); [lia|].
    destruct (Nat.ltb_spec (List.length (filter validVector (validPoints trackPath))) 2),
             (Nat.leb_spec 2 (List.length (filter validVector (validPoints trackPath))));
      try reflexivity; lia.
Qed.

(** X14. A path with fewer than two usable entries gives no boundary
    point at all, and the first render of the component with it returns
    nothing and raises nothing.  A later render does so only after a render
    that returned early as well: the second [useMemo] sits behind the two
    early returns, so when the path of a mounted component goes from two
    valid centerline points or more to fewer than two usable entries, or
    back, the render calls another number of hooks than the one before and
    ends in React's hook-order error. *)
Theorem early_return_skips_a_hook :
  forall before trackPath : list (list num),
    (List.length (validPoints trackPath) < 2)%nat ->
    boundaries trackPath = mkBoundaries [] [] [] /\
    renderTrack None trackPath = Returned (Normal None) /\
    renderTrack (Some before) trackPath =
      (if (2 <=? List.length (filter validVector (validPoints before)))%nat
       then HookOrderError else Returned (Normal None)) /\
    ((2 <=? List.length (filter validVector (validPoints before)))%nat = true ->
     renderTrack (Some trackPath) before = HookOrderError).
Proof.
  intros before trackPath H.
  pose proof (boundaries_too_few trackPath H) as E.
  assert (HT : Track trackPath = Normal None) by (unfold Track; now rewrite E).
  assert (Hh : hooksOf trackPath = 1%nat).
  { rewrite hooksOf_usable.
    pose proof (filter_length validVector (validPoints trackPath)).
    destruct (Nat.leb_spec 2 (List.length (filter validVector (validPoints trackPath))));
      [lia | reflexivity]. }
  split; [exact E|]. split; [simpl; now rewrite HT|].
  unfold renderTrack. rewrite Hh, HT, (hooksOf_usable before).
  destruct (2 <=? List.length (filter validVector (validPoints before)))%nat;
    split; try reflexivity; try discriminate.
Qed.

Lemma pushFaces_bound (count : nat) : forall i k : nat,
  In k (pushFaces i count) -> (k < 2 * (i + count) + 2)%nat.
Proof.
  induction count as [|c IH]; intros i k H; simpl in H.
  - contradiction.
  - repeat (destruct H as [<-|H]; [lia|]).
    apply IH in H. lia.
Qed.

(** X15. The mesh of a rendered surface is well formed: the vertex buffer
    holds six numbers for each valid inner point (the point and its outer
    partner), the index buffer holds whole triangles, and every index in it
    refers to a vertex of the buffer, closing triangles included. *)
Theorem asphalt_mesh_well_formed :
  forall (trackPath : list (list num)) (view : TrackView num)
         (geo : BufferGeometry num),
    Track trackPath = Normal (Some view) -> asphalt view = Some geo ->
    let n := List.length (filter validVector (innerPoints (boundaries trackPath))) in
    (2 <= n)%nat /\
    List.length (vertices geo) = (3 * (2 * n))%nat /\
    (exists triangles : nat, List.length (indices geo) = (3 * triangles)%nat) /\
    Forall (fun k => (3 * k + 2 < List.length (vertices geo))%nat) (indices geo).
Proof.
  intros trackPath view geo HT Hgeo n.
  pose proof (Track_asphalt trackPath view geo HT Hgeo) as HA.
  fold n in HA. unfold asphaltGeometry in HA.
  set (inner := filter validVector (innerPoints (boundaries trackPath))) in *.
  destruct (Nat.ltb_spec (List.length inner) 2) as [|Hn]; [discriminate|].
  destruct (_ <? 2)%nat; [discriminate|]. simpl in HA.
  destruct (pushVertices inner _ 0) as [vs|] eqn:EV; [|discriminate].
  injection HA as <-. simpl.
  pose proof (pushVertices_length _ _ _ _ EV) as HL. fold n in HL, Hn.
  split; [exact Hn|]. split; [lia|]. split.
  - rewrite length_app, pushFaces_length. unfold closingFaces.
    destruct (_ <? _).
    + exists (2 * (n - 1) + 2)%nat. simpl. lia.
    + exists (2 * (n - 1))%nat. simpl. lia.
  - rewrite HL. apply Forall_forall. intros k Hk.
    apply in_app_or in Hk as [Hk|Hk].
    + apply pushFaces_bound in Hk. lia.
    + unfold closingFaces in Hk. fold n in Hk.
      destruct (_ <? _); [|contradiction].
      repeat (destruct Hk as [<-|Hk]; [lia|]). contradiction.
Qed.





Lemma pushVertices_raises (vi vo : list (Vector3 num)) : forall i : nat,
  (i <= List.length vo)%nat ->
  (pushVertices vi vo i = TypeError <-> (List.length vo < i + List.length vi)%nat).
Proof.
  induction vi as [|inner rest IH]; intros i Hi; simpl.
  - split; [discriminate | lia].
  - destruct (nth_error vo i) as [outer|] eqn:E.
    + assert (Hlt : (i < List.length vo)%nat) by (apply nth_error_Some; congruence).
      specialize (IH (S i) ltac:(lia)).
      destruct (pushVertices rest vo (S i)) as [vs|].
      * split; [discriminate|]. intros H.
        pose proof (proj2 IH ltac:(lia)) as C. discriminate C.
      * split; [|reflexivity]. intros _.
        pose proof (proj1 IH eq_refl). lia.
    + apply nth_error_None in E. split; [lia | reflexivity].
Qed.

(** X26. The component raises exactly when its two filters have kept
    fewer outer than inner points: it reaches the vertex loop with two
    valid centerline points and two valid outer points at least, and the
    loop reads [validOuterPoints[i]] for each index of [validInnerPoints]
    and takes [x] of it.  With as many valid outer as valid inner points it
    never raises. *)
Theorem vertex_loop_raises_exactly :
  forall trackPath : list (list num),
    let validCenterPoints := filter validVector (centerPoints (boundaries trackPath)) in
    let validInnerPoints := filter validVector (innerPoints (boundaries trackPath)) in
    let validOuterPoints := filter validVector (outerPoints (boundaries trackPath)) in
    Track trackPath = TypeError <->
    (2 <= List.length validCenterPoints)%nat /\
    (2 <= List.length validOuterPoints)%nat /\
    (List.length validOuterPoints < List.length validInnerPoints)%nat.
Proof.
  intros trackPath vc vi vo. unfold Track. fold vc vi vo.
  pose proof (filter_length validVector (centerPoints (boundaries trackPath))) as Hc.
  fold vc in Hc.
  destruct (Nat.eqb_spec (List.length (centerPoints (boundaries trackPath))) 0).
  { split; [discriminate | lia]. }
  destruct (Nat.ltb_spec (List.length vc) 2).
  { split; [discriminate | lia]. }
  unfold asphaltGeometry.
  destruct (Nat.ltb_spec (List.length vi) 2); simpl.
  { split; [discriminate | lia]. }
  destruct (Nat.ltb_spec (List.length vo) 2); simpl.
  { split; [discriminate | lia]. }
  pose proof (pushVertices_raises vi vo 0 ltac:(lia)) as HR.
  destruct (pushVertices vi vo 0) as [vs|].
  - split; [discriminate|]. intros (_ & _ & Hlt).
    pose proof (proj2 HR ltac:(lia)). discriminate.
  - split; [|reflexivity]. intros _.
    pose proof (proj1 HR eq_refl). lia.
Qed.

End CenterLine.

Lemma early_return_skips_a_hook_witness :
  boundaries [Scenario.point 0 0 0; [lit 1; lit 2]] = mkBoundaries [] [] [] /\
  renderTrack None [Scenario.point 0 0 0; [lit 1; lit 2]] = Returned (Normal None) /\
  renderTrack (Some Scenario.hairpin) [Scenario.point 0 0 0; [lit 1; lit 2]]
    = HookOrderError /\
  renderTrack (Some [Scenario.point 0 0 0; [lit 1; lit 2]]) Scenario.hairpin
    = HookOrderError.
Proof.
  destruct (early_return_skips_a_hook Scenario.hairpin
              [Scenario.point 0 0 0; [lit 1; lit 2]]) as (H1 & H2 & H3 & H4).
  - vm_compute. reflexivity.
  - split; [exact H1|]. split; [exact H2|].
    split; [exact H3 | apply H4; reflexivity].
Defined.

Lemma asphalt_mesh_well_formed_witness :
  exists geo : BufferGeometry float,
    (2 <= 4)%nat /\
    List.length (vertices geo) = (3 * (2 * 4))%nat /\
    (exists triangles : nat, List.length (indices geo) = (3 * triangles)%nat) /\
    Forall (fun k => (3 * k + 2 < List.length (vertices geo))%nat) (indices geo).
Proof.
  destruct (rendered_asphalt _ _ hairpin_indices) as (view & geo & HT & Hgeo).
  exists geo.
  exact (asphalt_mesh_well_formed Scenario.hairpin view geo HT Hgeo).
Defined.


(* ================================================================== *)
(** * Pointing and clicking                                            *)
(* ================================================================== *)

Section PointerRuns.
Context {num : Type} {N : JSNumber num}.
Local Open Scope js_scope.

(** What a frame does to the pointer and the controls, by whether it
    takes a click. *)
Lemma pointerFrame_cases (c : Controller num) (now : Z) (p : Pointer)
    (s : RaceControls num) :
  (clicked c now p = true /\
   (300 < now - lastTriggerTimeRef p)%Z /\
   triggerPressedRef p = false /\ pressed c = true /\
   fst (pointerFrame (Some c) now p s) = mkPointer (hitButton c) true now) \/
  (clicked c now p = false /\
   snd (pointerFrame (Some c) now p s) = s /\
   lastTriggerTimeRef (fst (pointerFrame (Some c) now p s)) = lastTriggerTimeRef p /\
   triggerPressedRef (fst (pointerFrame (Some c) now p s))
     = pressed c && triggerPressedRef p).
Proof.
  unfold clicked, pointerFrame.
  destruct (pressed c); simpl.
  - destruct (triggerPressedRef p); simpl.
    + right. repeat split.
    + destruct (Z.ltb_spec 300 (now - lastTriggerTimeRef p)); simpl.
      * left. repeat split; auto.
      * right. repeat split.
  - right. repeat split.
Qed.

Lemma pointerRun_some (c : Controller num) (now : Z)
    (rest : list (option (Controller num) * Z)) (p : Pointer) (s : RaceControls num) :
  let p' := fst (pointerFrame (Some c) now p s) in
  let s' := snd (pointerFrame (Some c) now p s) in
  snd (pointerRun ((Some c, now) :: rest) p s)
    = (if clicked c now p then now :: snd (pointerRun rest p' s')
       else snd (pointerRun rest p' s')) /\
  snd (fst (pointerRun ((Some c, now) :: rest) p s))
    = snd (fst (pointerRun rest p' s')).
Proof.
  cbn [pointerRun].
  destruct (pointerFrame (Some c) now p s) as [p' s']. cbn [fst snd].
  destruct (pointerRun rest p' s') as [[p'' s''] ts]. split; reflexivity.
Qed.

Lemma pointerRun_none (now : Z)
    (rest : list (option (Controller num) * Z)) (p : Pointer) (s : RaceControls num) :
  pointerRun ((None, now) :: rest) p s = pointerRun rest p s.
Proof.
  cbn [pointerRun pointerFrame].
  now destruct (pointerRun rest p s) as [[p'' s''] ts].
Qed.

(** X17. The trigger is debounced: over any run of frames, whatever the
    controller does and whatever the clock reads, each click is taken more
    than 300 ms after the click before it (and the first more than 300 ms
    after the time the pointer last recorded). *)
Theorem clicks_debounced :
  forall (frames : list (option (Controller num) * Z)) (p : Pointer)
         (s : RaceControls num),
    debounced (lastTriggerTimeRef p) (snd (pointerRun frames p s)).
Proof.
  induction frames as [|[[c|] now] rest IH]; intros p s.
  - exact I.
  - rewrite (proj1 (pointerRun_some c now rest p s)).
    specialize (IH (fst (pointerFrame (Some c) now p s))
                   (snd (pointerFrame (Some c) now p s))).
    destruct (pointerFrame_cases c now p s)
      as [(-> & Hgap & _ & _ & Hp)|(-> & _ & Hlast & _)].
    + rewrite Hp in IH at 1. split; assumption.
    + now rewrite Hlast in IH.
  - rewrite pointerRun_none. apply IH.
Qed.

(** X18. A trigger that is held down clicks once at most: over a run of
    frames in which every controller has the trigger pressed, at most one
    click is taken, and none if the press was already recorded.  (A frame
    without controller changes nothing.) *)
Theorem held_trigger_clicks_once :
  forall (frames : list (option (Controller num) * Z)) (p : Pointer)
         (s : RaceControls num),
    Forall (fun frame => match fst frame with
                         | Some c => pressed c = true
                         | None => True
                         end) frames ->
    (List.length (snd (pointerRun frames p s)) <= 1)%nat /\
    (triggerPressedRef p = true -> snd (pointerRun frames p s) = []).
Proof.
  intros frames p s H. revert p s.
  induction H as [|[[c|] now] rest Hc _ IH]; intros p s.
  - split; [simpl; lia | reflexivity].
  - rewrite (proj1 (pointerRun_some c now rest p s)).
    destruct (IH (fst (pointerFrame (Some c) now p s))
                 (snd (pointerFrame (Some c) now p s))) as [IH1 IH2].
    cbn [fst] in Hc.
    destruct (pointerFrame_cases c now p s)
      as [(-> & _ & Hfree & _ & Hp)|(-> & _ & _ & Hheld)].
    + rewrite IH2 by (rewrite Hp; reflexivity).
      split; [simpl; lia | congruence].
    + split; [exact IH1|]. intros Hp. apply IH2. now rewrite Hheld, Hc, Hp.
  - rewrite pointerRun_none. apply IH.
Qed.

(** X19. The controls change through clicks only: a run of frames in
    which no click is taken leaves the playback state as it was, however
    the ray moves over the buttons. *)
Theorem no_click_no_change :
  forall (frames : list (option (Controller num) * Z)) (p : Pointer)
         (s : RaceControls num),
    snd (pointerRun frames p s) = [] ->
    snd (fst (pointerRun frames p s)) = s.
Proof.
  induction frames as [|[[c|] now] rest IH]; intros p s.
  - reflexivity.
  - rewrite (proj1 (pointerRun_some c now rest p s)),
            (proj2 (pointerRun_some c now rest p s)).
    destruct (pointerFrame_cases c now p s) as [(-> & _)|(-> & Hs & _)].
    + discriminate.
    + intros Hts. rewrite (IH _ _ Hts). exact Hs.
  - rewrite pointerRun_none. apply IH.
Qed.

End PointerRuns.

Lemma held_trigger_clicks_once_witness :
  (List.length
     (snd (pointerRun [(Some (Panel.pointAt play true), 1000%Z);
                       (None, 1400%Z);
                       (Some (Panel.pointAt resetButton true), 1800%Z)]
             initialPointer Scenario.paused)) <= 1)%nat /\
  (triggerPressedRef initialPointer = true ->
   snd (pointerRun [(Some (Panel.pointAt play true), 1000%Z);
                    (None, 1400%Z);
                    (Some (Panel.pointAt resetButton true), 1800%Z)]
          initialPointer Scenario.paused) = []).
Proof.
  apply (held_trigger_clicks_once
           [(Some (Panel.pointAt play true), 1000%Z);
            (None, 1400%Z);
            (Some (Panel.pointAt resetButton true), 1800%Z)]
           initialPointer Scenario.paused).
  repeat constructor.
Defined.

Lemma no_click_no_change_witness :
  snd (fst (pointerRun [(Some (Panel.pointAt play false), 1000%Z);
                        (Some (Panel.pointAt play true), 1100%Z)]
              (mkPointer None false 900) Scenario.paused)) = Scenario.paused.
Proof.
  apply (no_click_no_change
           [(Some (Panel.pointAt play false), 1000%Z);
            (Some (Panel.pointAt play true), 1100%Z)]
           (mkPointer None false 900) Scenario.paused).
  reflexivity.
Defined.

Section HitButton.
Import Float64Order.
Local Open Scope js_scope.

(** The loop over the buttons keeps a button whose distance no button
    seen so far is below. *)
Lemma raycast_fold (c : Controller float) (seen rest : list Button)
    (st : option Button * float) :
  (forall b d, In b seen -> intersects c b = Some d -> (d <? snd st) = false) ->
  (forall b, fst st = Some b -> intersects c b = Some (snd st)) ->
  let st' := fold_left (raycastButton c) rest st in
  (forall b d, In b (seen ++ rest) -> intersects c b = Some d -> (d <? snd st') = false) /\
  (forall b, fst st' = Some b -> intersects c b = Some (snd st')) /\
  (fst st' = None -> st' = st).
Proof.
  revert seen st. induction rest as [|name rest IH]; intros seen st Hmin Hbest; simpl.
  - rewrite app_nil_r. auto.
  - assert (Hstep :
      (forall b d, In b (seen ++ [name]) -> intersects c b = Some d ->
                   (d <? snd (raycastButton c st name)) = false) /\
      (forall b, fst (raycastButton c st name) = Some b ->
                 intersects c b = Some (snd (raycastButton c st name))) /\
      (fst (raycastButton c st name) = None -> raycastButton c st name = st)).
    { unfold raycastButton.
      destruct (intersects c name) as [distance|] eqn:E.
      - destruct (distance <? snd st) eqn:L; simpl.
        + split; [|split; [|discriminate]].
          * intros b d Hb Hd. apply in_app_or in Hb as [Hb|[<-|[]]].
            -- destruct (d <? distance) eqn:L'; auto.
               pose proof (ltb_trans d distance (snd st) L' L) as T.
               rewrite (Hmin b d Hb Hd) in T. discriminate T.
            -- rewrite E in Hd. injection Hd as <-. apply ltb_irrefl.
          * intros b Hb. injection Hb as <-. exact E.
        + split; [|split; auto].
          intros b d Hb Hd. apply in_app_or in Hb as [Hb|[<-|[]]]; eauto.
          rewrite E in Hd. now injection Hd as <-.
      - split; [|split; auto].
        intros b d Hb Hd. apply in_app_or in Hb as [Hb|[<-|[]]]; eauto.
        congruence. }
    destruct Hstep as (H1 & H2 & H3).
    destruct (IH (seen ++ [name]) (raycastButton c st name) H1 H2) as (K1 & K2 & K3).
    rewrite <- app_assoc in K1. simpl in K1.
    split; [exact K1|]. split; [exact K2|].
    intros Hn. rewrite (K3 Hn) in *. apply H3. now rewrite <- (K3 Hn).
Qed.

(** X20. The ray picks the nearest button: the button the frame reports
    as hit is one the ray meets, and no button is met at a smaller
    distance; when no button is reported, no button is met at a distance
    below infinity. *)
Theorem hitButton_nearest :
  forall (c : Controller float),
    match hitButton c with
    | Some hit =>
        exists distance,
          intersects c hit = Some distance /\
          forall b d, intersects c b = Some d -> (d <? distance) = false
    | None =>
        forall b d, intersects c b = Some d -> (d <? Infinity) = false
    end.
Proof.
  intros c.
  destruct (raycast_fold c [] buttons (None, Infinity)) as (H1 & H2 & H3).
  { intros b d []. }
  { discriminate. }
  assert (Hall : forall b : Button, In b ([] ++ buttons))
    by (intros []; simpl; auto 6).
  unfold hitButton, raycast. destruct (fst (fold_left _ _ _)) as [hit|] eqn:E.
  - exists (snd (fold_left (raycastButton c) buttons (None, Infinity))).
    split; [now apply H2|]. intros b d. apply H1, Hall.
  - intros b d Hd. specialize (H1 b d (Hall b) Hd).
    now rewrite (H3 eq_refl) in H1.
Qed.

End HitButton.

(* ================================================================== *)
(** * The start of the race                                            *)
(* ================================================================== *)

Section StartDetection.
Context {num : Type} {N : JSNumber num}.
Local Open Scope js_scope.

(** The first index of a stride that satisfies a test. *)
Lemma find_stride (f : nat -> bool) (m : nat) : forall (a i : nat),
  find f (map (fun k => k * 10)%nat (seq a m)) = Some i ->
  exists k, i = (k * 10)%nat /\ (a <= k < a + m)%nat /\ f i = true /\
            forall k', (a <= k' < k)%nat -> f (k' * 10)%nat = false.
Proof.
  induction m as [|m IH]; intros a i H; simpl in H.
  - discriminate.
  - destruct (f (a * 10)%nat) eqn:E.
    + injection H as <-. exists a. repeat split; auto; try lia.
    + destruct (IH (S a) i H) as (k & -> & Hk & Hf & Hbefore).
      exists k. repeat split; auto; try lia.
      intros k' Hk'. destruct (Nat.eq_dec k' a) as [->|]; auto.
      apply Hbefore. lia.
Qed.

(** What the loop over the cars has found, if anything. *)
Lemma firstMove_fold (cars : list (CarTelemetry num)) : forall (st : num * bool) (t : num),
  fold_left checkCar cars st = (t, true) ->
  st = (t, true) \/
  exists car startPos i,
    In car cars /\
    nth_error (positions_normalized car) 0 = Some startPos /\
    firstMoveIndex (positions_normalized car) startPos = Some i /\
    nth_error (times car) i = Some t.
Proof.
  induction cars as [|car rest IH]; intros st t H; simpl in H.
  - now left.
  - destruct (IH _ _ H) as [Hst|(car' & sp & i & Hin & H0 & Hi & Ht)].
    + unfold checkCar in Hst.
      destruct (nth_error (positions_normalized car) 0) as [startPos|] eqn:E0; auto.
      destruct (firstMoveIndex _ startPos) as [i|] eqn:Ei; auto.
      destruct (nth_error (times car) i) as [ti|] eqn:Et; auto.
      destruct (ti <? fst st); auto.
      injection Hst as ->. right. exists car, startPos, i. simpl. auto.
    + right. exists car', sp, i. simpl. auto.
Qed.

(** X21. A detected start is a real first movement: when the loop over
    the first five cars reports a time, it is the time stamp of a sample of
    one of these cars, at an index that is a multiple of 10, whose position
    is more than 0.01 away from the car's first position (0.0001 in squared
    distance), and no sample the loop visited before it on that car is. *)
Theorem detected_start_is_first_move :
  forall (telemetry : list (CarTelemetry num)) (t : num),
    firstMove telemetry = (t, true) ->
    exists (car : CarTelemetry num) (startPos pos : Position num) (k : nat),
      In car (firstn 5 telemetry) /\
      nth_error (positions_normalized car) 0 = Some startPos /\
      nth_error (positions_normalized car) (k * 10) = Some pos /\
      (distSq pos startPos >? lit 0.0001) = true /\
      nth_error (times car) (k * 10) = Some t /\
      (forall k' pos', (k' < k)%nat ->
         nth_error (positions_normalized car) (k' * 10) = Some pos' ->
         (distSq pos' startPos >? lit 0.0001) = false).
Proof.
  intros telemetry t H. unfold firstMove in H.
  destruct (firstMove_fold _ _ _ H) as [Hst|(car & sp & i & Hin & H0 & Hi & Ht)];
    [discriminate|].
  unfold firstMoveIndex, strideIndices in Hi.
  destruct (find_stride _ _ _ _ Hi) as (k & -> & _ & Hf & Hbefore).
  unfold movedAt in Hf.
  destruct (nth_error (positions_normalized car) (k * 10)) as [pos|] eqn:Ep;
    [|discriminate].
  exists car, sp, pos, k. repeat split; auto.
  intros k' pos' Hk' Hp'. specialize (Hbefore k' ltac:(lia)).
  unfold movedAt in Hbefore. now rewrite Hp' in Hbefore.
Qed.

(** X22. Detection happens once and keeps the player as it is: with the
    flag set the effect changes nothing, and when it sets the flag it moves
    both time cells to the same time and leaves the playing state and the
    speed alone. *)
Theorem detectStart_once :
  forall (telemetry : list (CarTelemetry num)) (flag : bool) (s : RaceControls num),
    let s' := fst (detectStart telemetry flag s) in
    let flag' := snd (detectStart telemetry flag s) in
    (flag = true -> s' = s /\ flag' = true) /\
    (flag' = flag -> s' = s) /\
    isPlaying s' = isPlaying s /\
    playbackSpeed s' = playbackSpeed s /\
    (flag' = true -> flag = false -> currentTimeState s' = currentTimeRef s').
Proof.
  intros telemetry flag s. unfold detectStart.
  destruct flag; simpl.
  - repeat split; auto. discriminate.
  - destruct (firstMove telemetry) as [t found].
    destruct (found && negb (t === Infinity)); simpl;
      repeat split; auto; discriminate.
Qed.

End StartDetection.

Section StartTime.
Local Open Scope js_scope.

Lemma detected_start_is_first_move_witness :
  exists (car : CarTelemetry float) (startPos pos : Position float) (k : nat),
    In car (firstn 5 [Scenario.braking; Panel.launch]) /\
    nth_error (positions_normalized car) 0 = Some startPos /\
    nth_error (positions_normalized car) (k * 10) = Some pos /\
    (distSq pos startPos >? lit 0.0001) = true /\
    nth_error (times car) (k * 10) = Some (lit 10) /\
    (forall k' pos', (k' < k)%nat ->
       nth_error (positions_normalized car) (k' * 10) = Some pos' ->
       (distSq pos' startPos >? lit 0.0001) = false).
Proof.
  apply (detected_start_is_first_move [Scenario.braking; Panel.launch] (lit 10)).
  vm_compute. reflexivity.
Defined.

(** X23. In binary64 arithmetic the detection never seeks to a negative
    time: whatever the telemetry holds, the time of the clock after the
    effect is not below 0 when the effect has set the flag. *)
Theorem detectStart_not_before_zero :
  forall (telemetry : list (CarTelemetry float)) (s : RaceControls float),
    snd (detectStart telemetry false s) = true ->
    (getCurrentTime (fst (detectStart telemetry false s)) <? lit 0) = false.
Proof.
  intros telemetry s. unfold detectStart. cbn [negb].
  destruct (firstMove telemetry) as [t found].
  destruct (found && negb (t === Infinity)); simpl; [|discriminate].
  intros _. apply max_0_not_negative.
Qed.

Lemma detectStart_not_before_zero_witness :
  (getCurrentTime (fst (detectStart [Scenario.braking; Panel.launch] false
                          Scenario.paused)) <? lit 0) = false.
Proof.
  apply (detectStart_not_before_zero [Scenario.braking; Panel.launch] Scenario.paused).
  vm_compute. reflexivity.
Defined.

(** The run on the two cars: the second has moved at its eleventh sample,
    of time 10, and the clock is set two seconds before. *)
Lemma detectStart_launch :
  detectStart [Scenario.braking; Panel.launch] false Scenario.paused
    = (mkRaceControls false (lit 2) (lit 8) (lit 8), true).
Proof. vm_compute. reflexivity. Qed.

End StartTime.

(* ================================================================== *)
(** * Cars at the start                                                *)
(* ================================================================== *)

Section CarsAtStart.
Context {num : Type} {N : JSNumber num}.
Local Open Scope js_scope.

Lemma forEachCar_at_start (t : num) (fleet : list (CarTelemetry num * option (Mesh num))) :
  (t === lit 0) = true ->
  forEachCar false t fleet =
    Normal (map (fun e =>
                   option_map (fun m => position_set m (px (initialPos (fst e)))
                                          (lit 0.01) (pz (initialPos (fst e))))
                              (snd e)) fleet).
Proof.
  intros Ht. induction fleet as [|[carData [carRef|]] rest IH]; simpl.
  - reflexivity.
  - unfold updateCar. simpl. rewrite Ht, IH. reflexivity.
  - now rewrite IH.
Qed.

(** X25. Paused at time 0 every mounted car stands on its first sample
    (on the origin if it has none) at height 0.01 with the colour it had,
    wherever it was before and whether or not the frame runs the reset loop
    first; cars without data or without mesh raise nothing.  The frame
    records the time it has read. *)
Theorem paused_at_zero_cars_at_start :
  forall (t lastTimeRef : num) (fleet : list (CarTelemetry num * option (Mesh num))),
    (t === lit 0) = true ->
    useFrame false t lastTimeRef fleet =
      (Normal (map (fun e =>
                      option_map (fun m => mkMesh (mkPosition (px (initialPos (fst e)))
                                                     (lit 0.01)
                                                     (pz (initialPos (fst e))))
                                                  (color m))
                                 (snd e)) fleet), t).
Proof.
  intros t lastTimeRef fleet Ht. unfold useFrame. rewrite Ht. cbn [andb].
  f_equal. destruct (lastTimeRef >? lit 0).
  - rewrite forEachCar_at_start by assumption. f_equal.
    unfold resetCars. rewrite map_map. apply map_ext.
    intros [carData [carRef|]]; reflexivity.
  - now rewrite forEachCar_at_start.
Qed.

End CarsAtStart.

Lemma paused_at_zero_cars_at_start_witness :
  useFrame false (lit 0) (lit 3)
    [(Scenario.braking, Some Scenario.mesh0); (Scenario.empty, Some Scenario.mesh0);
     (Scenario.stalled, None)]
  = (Normal [Some (mkMesh (Scenario.pos 0 0.01 0) "#FFFFFF");
             Some (mkMesh (Scenario.pos 0 0.01 0) "#FFFFFF"); None], lit 0).
Proof.
  apply (paused_at_zero_cars_at_start (lit 0) (lit 3)
           [(Scenario.braking, Some Scenario.mesh0); (Scenario.empty, Some Scenario.mesh0);
            (Scenario.stalled, None)]).
  vm_compute. reflexivity.
Defined.

(* ================================================================== *)
(** * Meshes shared by name                                            *)
(* ================================================================== *)

Section DriverNames.
Context {num : Type} {N : JSNumber num}.
Local Open Scope js_scope.

(** A frame does not touch the meshes of other names. *)
Lemma forEachDriver_frame (playing : bool) (t : num)
    (telemetry : list (CarTelemetry num)) :
  forall (carRefs carRefs' : CarRefs num) (name : string),
    forEachDriver playing t telemetry carRefs = Normal carRefs' ->
    ~ In name (map (@driver num) telemetry) ->
    carRefs' name = carRefs name.
Proof.
  induction telemetry as [|carData rest IH]; intros carRefs carRefs' name H Hn;
    simpl in H.
  - now injection H as <-.
  - assert (Hhead : name <> driver carData) by (intros ->; apply Hn; left; reflexivity).
    assert (Hrest : ~ In name (map (@driver num) rest))
      by (intros Hin; apply Hn; right; exact Hin).
    destruct (carRefs (driver carData)) as [carRef|]; [|eauto].
    destruct (updateCar playing t carData carRef) as [m|]; [|discriminate].
    rewrite (IH _ _ name H Hrest). unfold setRef.
    destruct (String.eqb_spec name (driver carData)); [contradiction | reflexivity].
Qed.

(** X9. When the driver names of the telemetry are pairwise distinct, a
    frame updates every car on its own: the loop that looks each mesh up by
    driver name, as the source does, ends as the loop that gives every
    entry its own mesh does; it raises when that one raises, and otherwise
    leaves under each name the mesh that the pass over that car alone
    produces, and leaves every other mesh as it was. *)
Theorem distinct_drivers_update_independently :
  forall (playing : bool) (t : num) (telemetry : list (CarTelemetry num))
         (carRefs : CarRefs num),
    NoDup (map (@driver num) telemetry) ->
    match forEachDriver playing t telemetry carRefs with
    | Normal carRefs' =>
        forEachCar playing t
          (map (fun carData => (carData, carRefs (driver carData))) telemetry)
          = Normal (map (fun carData => carRefs' (driver carData)) telemetry) /\
        (forall name, ~ In name (map (@driver num) telemetry) ->
                      carRefs' name = carRefs name)
    | TypeError =>
        forEachCar playing t
          (map (fun carData => (carData, carRefs (driver carData))) telemetry)
          = TypeError
    end.
Proof.
  intros playing t telemetry. induction telemetry as [|carData rest IH];
    intros carRefs Hnd; simpl.
  - split; [reflexivity | auto].
  - inversion Hnd as [|? ? Hhead Hrest]; subst.
    destruct (carRefs (driver carData)) as [carRef|] eqn:E.
    + destruct (updateCar playing t carData carRef) as [m|] eqn:EU; [|reflexivity].
      specialize (IH (setRef carRefs (driver carData) m) Hrest).
      assert (Hsame : map (fun c => (c, setRef carRefs (driver carData) m (driver c))) rest
                      = map (fun c => (c, carRefs (driver c))) rest).
      { apply map_ext_in. intros c Hc. unfold setRef.
        destruct (String.eqb_spec (driver c) (driver carData)) as [Heq|]; [|reflexivity].
        exfalso. apply Hhead. rewrite <- Heq. now apply in_map. }
      rewrite Hsame in IH.
      destruct (forEachDriver playing t rest (setRef carRefs (driver carData) m))
        as [carRefs'|] eqn:EF.
      * destruct IH as [IH1 IH2]. rewrite IH1. split.
        -- rewrite (IH2 (driver carData) Hhead). unfold setRef.
           now rewrite String.eqb_refl.
        -- intros name Hn. rewrite IH2 by (intros Hin; apply Hn; right; exact Hin).
           unfold setRef.
           destruct (String.eqb_spec name (driver carData)) as [->|]; [|reflexivity].
           exfalso. apply Hn. left. reflexivity.
      * now rewrite IH.
    + specialize (IH carRefs Hrest).
      destruct (forEachDriver playing t rest carRefs) as [carRefs'|] eqn:EF.
      * destruct IH as [IH1 IH2]. rewrite IH1. split.
        -- now rewrite (IH2 (driver carData) Hhead), E.
        -- intros name Hn. apply IH2. intros Hin. apply Hn. right. exact Hin.
      * now rewrite IH.
Qed.

End DriverNames.

Section SharedMesh.
Local Open Scope js_scope.

Lemma distinct_drivers_update_independently_witness :
  exists carRefs' : CarRefs float,
    forEachCar true (lit 0.5)
      (map (fun carData => (carData, Fleet.oneMesh (driver carData)))
           [Scenario.braking; Fleet.doubled])
      = Normal (map (fun carData => carRefs' (driver carData))
                    [Scenario.braking; Fleet.doubled]) /\
    (forall name, ~ In name (map (@driver float) [Scenario.braking; Fleet.doubled]) ->
                  carRefs' name = Fleet.oneMesh name).
Proof.
  pose proof (distinct_drivers_update_independently true (lit 0.5)
                [Scenario.braking; Fleet.doubled] Fleet.oneMesh) as H.
  destruct (forEachDriver true (lit 0.5) [Scenario.braking; Fleet.doubled] Fleet.oneMesh)
    as [carRefs'|] eqn:E.
  - exists carRefs'. apply H.
    constructor; [simpl; intros [C|[]]; discriminate C|].
    constructor; [simpl; tauto | constructor].
  - vm_compute in E. discriminate E.
Defined.

(** Two entries with one driver name work on one mesh, the second from
    what the first has left: after a frame at time 0.5 the mesh of ["HAM"]
    is where [Fleet.twin] puts it and has the colour [Scenario.braking] gave
    it, a mesh neither entry produces on its own. *)
Lemma twins_share_a_mesh :
  (exists carRefs',
     forEachDriver true (lit 0.5) [Scenario.braking; Fleet.twin] Fleet.oneMesh
       = Normal carRefs' /\
     carRefs' "HAM"%string = Some (mkMesh (Scenario.pos 5 0.01 5) "#03CEA4")) /\
  sample (lit 0.5) Scenario.braking Scenario.mesh0
    = Normal (mkMesh (Scenario.pos 5 0.01 0) "#03CEA4") /\
  sample (lit 0.5) Fleet.twin Scenario.mesh0
    = Normal (mkMesh (Scenario.pos 5 0.01 5) "#FFFFFF").
Proof.
  split; [|split; vm_compute; reflexivity].
  eexists. split; [reflexivity|]. vm_compute. reflexivity.
Qed.

End SharedMesh.

(* ================================================================== *)
(** * The cap on the frame delta                                       *)
(* ================================================================== *)

Section FrameCap.
Local Open Scope js_scope.

Lemma SFltb_not_nan a b :
  SFltb a b = true -> SFeqb a a = true /\ SFeqb b b = true.
Proof.
  unfold SFltb, SFeqb.
  destruct a as [[]|[]| |[] ma ea], b as [[]|[]| |[] mb eb]; simpl;
    try discriminate; intros _;
    rewrite ?Z.compare_refl, ?Pos.compare_cont_refl; auto.
Qed.

Lemma ltb_not_nan (a b : float) :
  PrimFloat.ltb a b = true ->
  PrimFloat.is_nan a = false /\ PrimFloat.is_nan b = false.
Proof.
  unfold PrimFloat.is_nan.
  rewrite FloatAxioms.ltb_spec, !FloatAxioms.eqb_spec. intros H.
  apply SFltb_not_nan in H as [-> ->]. auto.
Qed.

(** [Math.min] of two numbers of which one is below the other. *)
Lemma min_of_ordered (a b : float) :
  PrimFloat.ltb a b = true -> Float64.min a b = a /\ Float64.min b a = a.
Proof.
  intros H. destruct (ltb_not_nan a b H) as [Ha Hb].
  pose proof (ltb_asym a b H) as Hba. cbn in Hba.
  unfold Float64.min. rewrite Ha, Hb, H, Hba. auto.
Qed.

(** X5. The frame driver caps the frame delta at 0.1 s, in binary64
    arithmetic: a frame longer than 0.1 s moves the clock exactly as a frame
    of 0.1 s does, and a shorter one moves it by its own delta; a paused
    clock is left alone by both. *)
Theorem frame_advance_capped :
  forall (delta : float) (s : RaceControls float),
    ((lit 0.1 <? delta) = true -> RaceTimer delta s = advanceTime (lit 0.1) s) /\
    ((delta <? lit 0.1) = true -> RaceTimer delta s = advanceTime delta s).
Proof.
  intros delta s. unfold RaceTimer.
  destruct (isPlaying s) eqn:Hp.
  - change (Math_min delta (lit 0.1)) with (Float64.min delta (lit 0.1)).
    split; intros H.
    + now rewrite (proj2 (min_of_ordered (lit 0.1) delta H)).
    + now rewrite (proj1 (min_of_ordered delta (lit 0.1) H)).
  - unfold advanceTime. rewrite Hp. split; reflexivity.
Qed.

End FrameCap.

(* ================================================================== *)
(** * The bounds of the track                                          *)
(* ================================================================== *)

Section RunningBound.
(** A running minimum or maximum: [op] keeps one of its two arguments,
    which [R] relates to both. *)
Variable op : float -> float -> float.
Variable R : float -> float -> Prop.
Hypothesis op_keeps : forall a b,
  PrimFloat.is_nan a = false -> PrimFloat.is_nan b = false ->
  (op a b = a \/ op a b = b) /\ R a (op a b) /\ R b (op a b).
Hypothesis R_trans : forall x m r,
  PrimFloat.is_nan m = false -> R x m -> R m r -> R x r.

Lemma running_bound (l : list float) : forall m0 : float,
  PrimFloat.is_nan m0 = false ->
  Forall (fun x => PrimFloat.is_nan x = false) l ->
  PrimFloat.is_nan (fold_left op l m0) = false /\
  In (fold_left op l m0) (m0 :: l) /\
  forall x, In x (m0 :: l) -> R x (fold_left op l m0).
Proof.
  induction l as [|x l IH]; intros m0 H0 Hl; simpl.
  - split; [exact H0|]. split; [now left|].
    intros y [<-|[]]. destruct (op_keeps m0 m0 H0 H0) as ([E|E] & H & _);
      now rewrite E in H.
  - inversion Hl as [|? ? Hx Hl']; subst.
    destruct (op_keeps m0 x H0 Hx) as (Hor & Hm0 & Hmx).
    assert (H1 : PrimFloat.is_nan (op m0 x) = false)
      by (destruct Hor as [-> | ->]; assumption).
    destruct (IH (op m0 x) H1 Hl') as (Hr & Hin & Hall).
    split; [exact Hr|]. split.
    + destruct Hin as [Hin|Hin]; [|now right; right].
      rewrite <- Hin. destruct Hor as [-> | ->]; [now left | now right; left].
    + intros y [<-|[<-|Hy]].
      * apply R_trans with (op m0 x); auto. apply Hall. now left.
      * apply R_trans with (op m0 x); auto. apply Hall. now left.
      * apply Hall. now right.
Qed.

End RunningBound.

Section BoundingBox.
Local Open Scope js_scope.

Lemma SFltb_neg_trans a b c :
  SFltb a b = false -> SFltb b c = false -> SFeqb b b = true ->
  SFltb a c = false.
Proof. unfold SFltb, SFeqb. sf_solve. Qed.

Lemma ltb_neg_trans (a b c : float) :
  PrimFloat.is_nan b = false ->
  PrimFloat.ltb a b = false -> PrimFloat.ltb b c = false ->
  PrimFloat.ltb a c = false.
Proof.
  unfold PrimFloat.is_nan. rewrite !FloatAxioms.ltb_spec, FloatAxioms.eqb_spec.
  intros Hb H1 H2. apply negb_false_iff in Hb.
  eapply SFltb_neg_trans; eauto.
Qed.

Lemma min_keeps (a b : float) :
  PrimFloat.is_nan a = false -> PrimFloat.is_nan b = false ->
  (Float64.min a b = a \/ Float64.min a b = b) /\
  PrimFloat.ltb a (Float64.min a b) = false /\
  PrimFloat.ltb b (Float64.min a b) = false.
Proof.
  intros Ha Hb. unfold Float64.min. rewrite Ha, Hb. cbn [orb].
  pose proof (ltb_irrefl a) as Iaa. pose proof (ltb_irrefl b) as Ibb.
  cbn in Iaa, Ibb.
  destruct (PrimFloat.ltb a b) eqn:E1.
  - pose proof (ltb_asym a b E1) as E2. cbn in E2. auto.
  - destruct (PrimFloat.ltb b a) eqn:E2; [auto|].
    destruct (PrimFloat.get_sign a); auto.
Qed.

Lemma max_keeps (a b : float) :
  PrimFloat.is_nan a = false -> PrimFloat.is_nan b = false ->
  (Float64.max a b = a \/ Float64.max a b = b) /\
  PrimFloat.ltb (Float64.max a b) a = false /\
  PrimFloat.ltb (Float64.max a b) b = false.
Proof.
  intros Ha Hb. unfold Float64.max. rewrite Ha, Hb. cbn [orb].
  pose proof (ltb_irrefl a) as Iaa. pose proof (ltb_irrefl b) as Ibb.
  cbn in Iaa, Ibb.
  destruct (PrimFloat.ltb a b) eqn:E1.
  - pose proof (ltb_asym a b E1) as E2. cbn in E2. auto.
  - destruct (PrimFloat.ltb b a) eqn:E2; [auto|].
    destruct (PrimFloat.get_sign a); auto.
Qed.

(** The first entry replaces the initial [Infinity] and [-Infinity]. *)
Lemma min_Infinity (x : float) :
  PrimFloat.is_nan x = false -> Float64.min Infinity x = x.
Proof.
  intros Hx. unfold Float64.min.
  assert (H1 : PrimFloat.is_nan (Infinity (num := float)) = false)
    by (vm_compute; reflexivity).
  assert (H2 : PrimFloat.ltb Infinity x = false).
  { rewrite FloatAxioms.ltb_spec.
    replace (Prim2SF Infinity) with (S754_infinity false) by (vm_compute; reflexivity).
    unfold SFltb. now destruct (Prim2SF x) as [[]|[]| |[] m e]. }
  assert (H3 : PrimFloat.get_sign (Infinity (num := float)) = false)
    by (vm_compute; reflexivity).
  rewrite H1, Hx, H2, H3. cbn [orb]. now destruct (PrimFloat.ltb x Infinity).
Qed.

Lemma max_negInfinity (x : float) :
  PrimFloat.is_nan x = false -> Float64.max (nneg Infinity) x = x.
Proof.
  intros Hx. set (ninf := nneg (Infinity (num := float))).
  unfold Float64.max.
  assert (H1 : PrimFloat.is_nan ninf = false) by (vm_compute; reflexivity).
  assert (H2 : PrimFloat.ltb x ninf = false).
  { rewrite FloatAxioms.ltb_spec.
    replace (Prim2SF ninf) with (S754_infinity true) by (vm_compute; reflexivity).
    unfold SFltb. now destruct (Prim2SF x) as [[]|[]| |[] m e]. }
  assert (H3 : PrimFloat.get_sign ninf = true) by (vm_compute; reflexivity).
  rewrite H1, Hx, H2, H3. cbn [orb]. now destruct (PrimFloat.ltb ninf x).
Qed.

(** The six bounds as six folds over the coordinates. *)
Lemma trackBounds_folds (trackPath : list (list float)) : forall b : Bounds float,
  fold_left growBounds trackPath b =
    mkBounds
      (fold_left Float64.min (map (fun p => component p 0) trackPath) (minX b))
      (fold_left Float64.max (map (fun p => component p 0) trackPath) (maxX b))
      (fold_left Float64.min (map (fun p => component p 1) trackPath) (minY b))
      (fold_left Float64.max (map (fun p => component p 1) trackPath) (maxY b))
      (fold_left Float64.min (map (fun p => component p 2) trackPath) (minZ b))
      (fold_left Float64.max (map (fun p => component p 2) trackPath) (maxZ b)).
Proof.
  induction trackPath as [|p rest IH]; intros b; simpl.
  - now destruct b.
  - rewrite IH. reflexivity.
Qed.

Lemma min_from_Infinity (xs : list float) :
  xs <> [] -> Forall (fun x => PrimFloat.is_nan x = false) xs ->
  In (fold_left Float64.min xs Infinity) xs /\
  forall x, In x xs -> PrimFloat.ltb x (fold_left Float64.min xs Infinity) = false.
Proof.
  destruct xs as [|x0 xs]; [congruence|]. intros _ H.
  inversion H as [|? ? H0 Hxs]; subst. cbn [fold_left]. rewrite (min_Infinity x0 H0).
  destruct (running_bound Float64.min (fun x r => PrimFloat.ltb x r = false)
              min_keeps
              ltac:(intros x m r Hm H1 H2; exact (ltb_neg_trans x m r Hm H1 H2))
              xs x0 H0 Hxs) as (_ & Hin & Hall).
  split; assumption.
Qed.

Lemma max_from_negInfinity (xs : list float) :
  xs <> [] -> Forall (fun x => PrimFloat.is_nan x = false) xs ->
  In (fold_left Float64.max xs (- Infinity)) xs /\
  forall x, In x xs -> PrimFloat.ltb (fold_left Float64.max xs (- Infinity)) x = false.
Proof.
  destruct xs as [|x0 xs]; [congruence|]. intros _ H.
  inversion H as [|? ? H0 Hxs]; subst. cbn [fold_left]. rewrite (max_negInfinity x0 H0).
  destruct (running_bound Float64.max (fun x r => PrimFloat.ltb r x = false)
              max_keeps
              ltac:(intros x m r Hm H1 H2; exact (ltb_neg_trans r m x Hm H2 H1))
              xs x0 H0 Hxs) as (_ & Hin & Hall).
  split; assumption.
Qed.

(** X24. The bounds the placement effect takes of the path are tight, in
    binary64 arithmetic: for a path that is not empty and whose entries hold
    three numbers none of which is [NaN], each of the six bounds is the
    coordinate of some entry, and no entry has a coordinate below the
    minimum or above the maximum of its axis. *)
Theorem trackBounds_tight :
  forall trackPath : list (list float),
    trackPath <> [] ->
    Forall (fun point => isNaN (component point 0) = false /\
                         isNaN (component point 1) = false /\
                         isNaN (component point 2) = false) trackPath ->
    let b := trackBounds trackPath in
    (In (minX b) (map (fun p => component p 0) trackPath) /\
     In (maxX b) (map (fun p => component p 0) trackPath) /\
     In (minY b) (map (fun p => component p 1) trackPath) /\
     In (maxY b) (map (fun p => component p 1) trackPath) /\
     In (minZ b) (map (fun p => component p 2) trackPath) /\
     In (maxZ b) (map (fun p => component p 2) trackPath)) /\
    forall point, In point trackPath ->
      (component point 0 <? minX b) = false /\ (maxX b <? component point 0) = false /\
      (component point 1 <? minY b) = false /\ (maxY b <? component point 1) = false /\
      (component point 2 <? minZ b) = false /\ (maxZ b <? component point 2) = false.
Proof.
  intros trackPath Hne Hall b. subst b. unfold trackBounds.
  rewrite trackBounds_folds. cbn [minX maxX minY maxY minZ maxZ].
  assert (Hk : forall k, (k < 3)%nat ->
            map (fun p => component p k) trackPath <> [] /\
            Forall (fun x => PrimFloat.is_nan x = false)
                   (map (fun p => component p k) trackPath)).
  { intros k Hk. split.
    - destruct trackPath; [congruence | discriminate].
    - apply Forall_map. eapply Forall_impl; [|exact Hall].
      intros p (H0 & H1 & H2). cbn in H0, H1, H2.
      destruct k as [|[|[|k]]]; [assumption | assumption | assumption | lia]. }
  destruct (Hk 0%nat ltac:(lia)) as [N0 F0].
  destruct (Hk 1%nat ltac:(lia)) as [N1 F1].
  destruct (Hk 2%nat ltac:(lia)) as [N2 F2].
  destruct (min_from_Infinity _ N0 F0) as [I0 L0].
  destruct (max_from_negInfinity _ N0 F0) as [J0 U0].
  destruct (min_from_Infinity _ N1 F1) as [I1 L1].
  destruct (max_from_negInfinity _ N1 F1) as [J1 U1].
  destruct (min_from_Infinity _ N2 F2) as [I2 L2].
  destruct (max_from_negInfinity _ N2 F2) as [J2 U2].
  split; [repeat split; assumption|].
  intros point Hp.
  pose proof (in_map (fun p => component p 0) _ _ Hp) as P0.
  pose proof (in_map (fun p => component p 1) _ _ Hp) as P1.
  pose proof (in_map (fun p => component p 2) _ _ Hp) as P2.
  cbn. repeat split; auto.
Qed.

Lemma trackBounds_tight_witness :
  (maxX (trackBounds Scenario.hairpin) <? lit 0.99) = false /\
  (lit (-0.84) <? minX (trackBounds Scenario.hairpin)) = false.
Proof.
  destruct (trackBounds_tight Scenario.hairpin) as [_ H].
  - discriminate.
  - repeat constructor.
  - split.
    + apply (H (Scenario.point 0.99 0 0.14)). simpl. tauto.
    + apply (H (Scenario.point (-0.84) 0 0.14)). simpl. tauto.
Defined.

End BoundingBox.
